(** * Business Ideas bot ([main.py]): a shallow embedding and its properties

    The bot relays button presses and commands of a chat to a completion
    service and sends the answers back.  The embedding follows the source
    function by function:

    - Python [str] values are modelled by [string], holding the UTF-8
      encoding of the text.  Every character the program inspects (the
      reserved markup characters, the backslash, the callback prefixes) is
      ASCII, and UTF-8 is self-synchronising, so searching, replacing and
      escaping byte-wise agrees with Python's code-point-wise operations.
    - [escape_markdown_v2] is [re.sub] over the pattern built by
      [re.escape], with the fragment of [re] it needs modelled in
      [Module re].
    - The handlers are computations of [M]: they read the surroundings (the
      transport, the completion client, the configuration), add the events
      they cause to a trace, and return or raise.  The transport and the
      completion client are oracles of the [environment]: a request is
      recorded and then accepted or rejected as the oracle says.

    The definitions come first; the properties follow. *)

From Stdlib Require Import String Ascii List Bool Arith ZArith Lia.
From Stdlib Require Import DecimalString.
Import ListNotations.
Open Scope string_scope.
Open Scope list_scope.

(* ================================================================== *)
(** * Python string operations used by the program *)
(* ================================================================== *)

Definition backslash : ascii := "\"%char.

(** The one-character string [c]. *)
Definition str1 (c : ascii) : string := String c EmptyString.

(** [s.startswith(p)] *)
Definition startswith (s p : string) : bool := prefix p s.

(** [sub in s] *)
Fixpoint str_in (sub s : string) : bool :=
  prefix sub s
  || match s with
     | EmptyString => false
     | String _ s' => str_in sub s'
     end.

(** Number of positions of [s] at which [sub] occurs. *)
Fixpoint occurrences (sub s : string) : nat :=
  (if prefix sub s then 1 else 0)
  + match s with
    | EmptyString => 0
    | String _ s' => occurrences sub s'
    end.

(** [''.join(f(c) for c in s)] *)
Fixpoint str_flat_map (f : ascii -> string) (s : string) : string :=
  match s with
  | EmptyString => EmptyString
  | String c s' => (f c ++ str_flat_map f s')%string
  end.

(** [s.replace(old, new)] for a non-empty [old]: the occurrences of [old]
    are found from left to right and do not overlap.  [skip] counts the
    characters of a matched occurrence that are still to be dropped. *)
Fixpoint replace_from (skip : nat) (old new s : string) : string :=
  match s with
  | EmptyString => EmptyString
  | String c s' =>
      match skip with
      | S k => replace_from k old new s'
      | O =>
          if prefix old s
          then (new ++ replace_from (String.length old - 1) old new s')%string
          else String c (replace_from 0 old new s')
      end
  end.

(** [s.replace(old, new)]; with an empty [old], Python inserts [new] before
    every character and at the end. *)
Definition str_replace (s old new : string) : string :=
  match old with
  | EmptyString => (str_flat_map (fun c => new ++ str1 c) s ++ new)%string
  | _ => replace_from 0 old new s
  end.

(* ================================================================== *)
(** * The fragment of Python's [re] module the program relies on *)
(* ================================================================== *)

Module re.

(** Characters with a special meaning in a pattern (Python 3.7 and
    later): [()[]{}?*+-|^$\.&~#], space, and the white-space controls
    [\t \n \r \v \f]. *)
Definition special_chars : list ascii :=
  list_ascii_of_string "()[]{}?*+-|^$\.&~# "
  ++ ["009"; "010"; "013"; "011"; "012"]%char.

Definition is_special (c : ascii) : bool :=
  existsb (Ascii.eqb c) special_chars.

(** [re.escape(pattern)] *)
Definition escape (pattern : string) : string :=
  str_flat_map
    (fun c => if is_special c then String backslash (str1 c) else str1 c)
    pattern.

(** Patterns of the fragment: a character class, possibly inside capture
    groups.  Each of them matches exactly one character. *)
Inductive regex : Type :=
| CharClass (members : list ascii)
| Capture (r : regex).

Definition is_alnum (c : ascii) : bool :=
  let n := nat_of_ascii c in
  ((48 <=? n)%nat && (n <=? 57)%nat)
  || ((65 <=? n)%nat && (n <=? 90)%nat)
  || ((97 <=? n)%nat && (n <=? 122)%nat).

(** The body of a class, after its opening bracket: the members, and what
    follows the closing bracket.  A backslash makes the next punctuation
    character a literal member.  Ranges, negation and the letter escapes
    ([\d], [\w], ...) are outside the fragment. *)
Fixpoint parse_class (first : bool) (body : string)
  : option (list ascii * string) :=
  match body with
  | EmptyString => None
  | String c rest =>
      if Ascii.eqb c "]" then
        if first then None else Some ([], rest)
      else if Ascii.eqb c "^" && first then None
      else if Ascii.eqb c "-" then None
      else if Ascii.eqb c backslash then
        match rest with
        | EmptyString => None
        | String d rest' =>
            if is_alnum d then None
            else match parse_class false rest' with
                 | Some (ms, tl) => Some (d :: ms, tl)
                 | None => None
                 end
        end
      else match parse_class false rest with
           | Some (ms, tl) => Some (c :: ms, tl)
           | None => None
           end
  end.

(** [re.compile(pattern)] on the fragment; [None] stands for [re.error]
    and for syntax outside the fragment. *)
Definition compile (pattern : string) : option regex :=
  match pattern with
  | String "(" (String "[" body) =>
      match parse_class true body with
      | Some (ms, String ")" EmptyString) => Some (Capture (CharClass ms))
      | _ => None
      end
  | String "[" body =>
      match parse_class true body with
      | Some (ms, EmptyString) => Some (CharClass ms)
      | _ => None
      end
  | _ => None
  end.

Fixpoint matches (r : regex) (c : ascii) : bool :=
  match r with
  | CharClass ms => existsb (Ascii.eqb c) ms
  | Capture r' => matches r' c
  end.

(** The text captured by the groups of [r], group 1 first, when [r]
    matches the character [c]. *)
Fixpoint groups (r : regex) (c : ascii) : list string :=
  match r with
  | CharClass _ => []
  | Capture r' => str1 c :: groups r' c
  end.

(** Replacement templates: literal characters and group references. *)
Inductive template_item : Type :=
| Lit (c : ascii)
| GroupRef (n : nat).

Definition digit_value (c : ascii) : option nat :=
  let n := nat_of_ascii c in
  if (48 <=? n)%nat && (n <=? 57)%nat then Some (n - 48) else None.

(** A template: [\\] is a backslash, [\N] is group [N] (one digit); the
    other escapes are outside the fragment. *)
Fixpoint parse_template (repl : string) : option (list template_item) :=
  match repl with
  | EmptyString => Some []
  | String c rest =>
      if Ascii.eqb c backslash then
        match rest with
        | EmptyString => None
        | String d rest' =>
            let item :=
              if Ascii.eqb d backslash then Some (Lit backslash)
              else match digit_value d with
                   | Some n => Some (GroupRef n)
                   | None => None
                   end in
            match item, parse_template rest' with
            | Some i, Some t => Some (i :: t)
            | _, _ => None
            end
        end
      else match parse_template rest with
           | Some t => Some (Lit c :: t)
           | None => None
           end
  end.

Definition valid_ref (ngroups : nat) (i : template_item) : bool :=
  match i with
  | Lit _ => true
  | GroupRef n => (n <=? ngroups)%nat
  end.

(** Expansion of a template for a match of the character [c]. *)
Fixpoint expand (t : list template_item) (gs : list string) (c : ascii)
  : string :=
  match t with
  | [] => EmptyString
  | Lit a :: t' => String a (expand t' gs c)
  | GroupRef 0 :: t' => String c (expand t' gs c)
  | GroupRef (S n) :: t' =>
      (nth n gs EmptyString ++ expand t' gs c)%string
  end.

(** Substitution with a compiled pattern: every matching character is
    replaced by the expanded template, the others are kept. *)
Definition sub_compiled (r : regex) (t : list template_item)
           (text : string) : string :=
  str_flat_map
    (fun c => if matches r c then expand t (groups r c) c else str1 c)
    text.

(** [re.sub(pattern, repl, text)] *)
Definition sub (pattern repl text : string) : option string :=
  match compile pattern, parse_template repl with
  | Some r, Some t =>
      if forallb (valid_ref (List.length (groups r "a"%char))) t
      then Some (sub_compiled r t text)
      else None
  | _, _ => None
  end.

End re.

(* ================================================================== *)
(** * Helper function for MarkdownV2 *)
(* ================================================================== *)

(** Characters to escape: [_ * [ ] ( ) ~ ` > # + - = | { } . !] *)
Definition escape_chars : string := "_*[]()~`>#+-=|{}.!".

(** [escape_markdown_v2(text)]: [re.sub(f'([{re.escape(escape_chars)}])',
    r'\\\1', text)].  The pattern and the template are constants and both
    compile (lemma [escape_markdown_v2_sub]), so the last branch, Python's
    [re.error], is never taken. *)
Definition escape_markdown_v2 (text : string) : string :=
  match re.sub ("([" ++ re.escape escape_chars ++ "])") "\\\1" text with
  | Some s => s
  | None => EmptyString
  end.

(** The reserved characters, as a predicate. *)
Definition is_reserved (c : ascii) : bool :=
  existsb (Ascii.eqb c) (list_ascii_of_string escape_chars).

(** Removal of the escape markers: a backslash that stands before a
    reserved character is dropped, everything else is kept. *)
Fixpoint remove_escape_markers (s : string) : string :=
  match s with
  | EmptyString => EmptyString
  | String c s' =>
      match s' with
      | String d s'' =>
          if Ascii.eqb c backslash && is_reserved d
          then String d (remove_escape_markers s'')
          else String c (remove_escape_markers s')
      | EmptyString => String c EmptyString
      end
  end.

(* ================================================================== *)
(** * Python dictionaries and exceptions *)
(* ================================================================== *)

(** A dictionary literal, in insertion order (the keys are distinct). *)
Definition dict (V : Type) : Type := list (string * V).

Fixpoint dict_lookup {V : Type} (d : dict V) (key : string) : option V :=
  match d with
  | [] => None
  | (k, v) :: d' => if String.eqb key k then Some v else dict_lookup d' key
  end.

(** [d.get(key, default)] *)
Definition dict_get {V : Type} (d : dict V) (key : string) (default : V) : V :=
  match dict_lookup d key with
  | Some v => v
  | None => default
  end.

(** [key in d] *)
Definition dict_contains {V : Type} (d : dict V) (key : string) : bool :=
  match dict_lookup d key with
  | Some _ => true
  | None => false
  end.

(** [d.keys()], [d.values()] and [d.items()] *)
Definition dict_keys {V : Type} (d : dict V) : list string := map fst d.
Definition dict_values {V : Type} (d : dict V) : list V := map snd d.
Definition dict_items {V : Type} (d : dict V) : list (string * V) := d.

(** The exception classes the program meets.  [BadRequest] is the class of
    [telegram.error]; [TelegramError] stands for the transport's other
    failures (time-outs, network and authorisation errors); [Exception]
    for everything else. *)
Inductive exception_class : Type :=
| BadRequest | TelegramError | AttributeError | KeyError | IndexError
| Exception.

Record exception : Type := mkException {
  exc_class : exception_class;
  exc_str : string               (* str(e) *)
}.

(** [except cls:] catches [e].  Every class is a subclass of [Exception];
    none of the others is a subclass of another. *)
Definition catches (cls : exception_class) (e : exception) : bool :=
  match cls, exc_class e with
  | Exception, _ => true
  | BadRequest, BadRequest => true
  | TelegramError, TelegramError => true
  | AttributeError, AttributeError => true
  | KeyError, KeyError => true
  | IndexError, IndexError => true
  | _, _ => false
  end.

Inductive result (A : Type) : Type :=
| Return (a : A)
| Raise (e : exception).
Arguments Return {A} a.
Arguments Raise {A} e.

(* ================================================================== *)
(** * The chat transport's objects and the program's visible actions *)
(* ================================================================== *)

Inductive ParseMode : Type := MARKDOWN_V2.

Record InlineKeyboardButton : Type := mkButton {
  text : string;
  callback_data : string
}.

(** [InlineKeyboardMarkup(keyboard)]: rows of buttons. *)
Definition InlineKeyboardMarkup : Type := list (list InlineKeyboardButton).

Record Message : Type := mkMessage {
  m_chat_id : Z;
  m_message_id : Z
}.

Record CallbackQuery : Type := mkCallbackQuery {
  q_data : option string;          (* query.data *)
  q_message : option Message       (* query.message *)
}.

Record Update : Type := mkUpdate {
  u_callback_query : option CallbackQuery;   (* update.callback_query *)
  u_message : option Message                 (* update.message *)
}.

Record CallbackContext : Type := mkContext {
  error : option exception                   (* context.error *)
}.

(** [update.effective_message]: the message of the update, or the one its
    callback query is attached to. *)
Definition effective_message (u : Update) : option Message :=
  match u_message u with
  | Some m => Some m
  | None =>
      match u_callback_query u with
      | Some q => q_message q
      | None => None
      end
  end.

(** The bound methods of the bot. *)
Inductive handler : Type :=
| self_start
| self_show_categories
| self_random_business_idea
| self_show_help
| self_back_to_start
| self_handle_category_selection
| self_callback_query_handler
| self_error_handler.

Inductive level : Type := INFO | WARNING | ERROR | CRITICAL.

Inductive registration : Type :=
| CommandHandler (command : string) (callback : handler)
| CallbackQueryHandler (callback : handler).

(** What the program does to the outside, in the order it does it. *)
Inductive event : Type :=
| answer                                      (* query.answer() *)
| edit_message_text (text : string) (parse_mode : option ParseMode)
                    (reply_markup : option InlineKeyboardMarkup)
| reply_text (text : string) (parse_mode : option ParseMode)
             (reply_markup : option InlineKeyboardMarkup)
| send_message (chat_id : Z) (text : string) (parse_mode : option ParseMode)
               (reply_markup : option InlineKeyboardMarkup)
| delete_message (chat_id message_id : Z)
| generate_content (prompt : string)          (* model.generate_content *)
| log (l : level) (msg : string)              (* logger.<l>(msg) *)
| invoke (h : handler)                        (* a handler is entered *)
| Updater (token : string)
| add_handler (r : registration)
| add_error_handler (callback : handler)
| start_webhook (listen : string) (port : Z) (url_path webhook_url : string)
| start_polling
| idle.

(** The program's surroundings.  The transport (the chat platform and its
    client library) answers a request, given everything done so far, with
    the identifier of the message concerned or with an exception; [model]
    is the completion client, [None] when its construction failed at import
    time. *)
Record environment : Type := mkEnvironment {
  transport : list event -> event -> result Z;
  model : option (string -> result string);
  random_index : nat;                               (* random.choice *)
  repr : option (Update + CallbackQuery) -> string; (* f"{update}" *)
  TELEGRAM_BOT_TOKEN : option string;
  GEMINI_API_KEY : option string;
  WEBHOOK_URL : option string;
  PORT : result Z                (* int(os.environ.get("PORT", 8443)) *)
}.

(* ================================================================== *)
(** * Computations: the actions performed, and a value or an exception *)
(* ================================================================== *)

(** A computation reads the environment and the history, and gives the
    events it adds together with its result. *)
Definition M (A : Type) : Type :=
  environment -> list event -> list event * result A.

Definition ret {A : Type} (a : A) : M A :=
  fun _ _ => ([], Return a).

Definition raise {A : Type} (e : exception) : M A :=
  fun _ _ => ([], Raise e).

Definition bind {A B : Type} (m : M A) (k : A -> M B) : M B :=
  fun env h =>
    match m env h with
    | (evs, Return a) =>
        let (evs', r) := k a env (h ++ evs) in (evs ++ evs', r)
    | (evs, Raise e) => (evs, Raise e)
    end.

Notation "x <- m ;; k" := (bind m (fun x => k))
  (at level 61, m at next level, right associativity).
Notation "m ;; k" := (bind m (fun _ => k))
  (at level 61, right associativity).

(** [try: body / except cls as e: handler(e)] *)
Definition try_except {A : Type} (body : M A) (cls : exception_class)
           (handler : exception -> M A) : M A :=
  fun env h =>
    match body env h with
    | (evs, Raise e) =>
        if catches cls e
        then let (evs', r) := handler e env (h ++ evs) in (evs ++ evs', r)
        else (evs, Raise e)
    | done => done
    end.

Definition ask : M environment :=
  fun env _ => ([], Return env).

Definition lift {A : Type} (r : result A) : M A :=
  fun _ _ => ([], r).

(** An action that cannot fail. *)
Definition emit (ev : event) : M unit :=
  fun _ _ => ([ev], Return tt).

(** The bound method [h] is entered. *)
Definition entered (h : handler) : M unit := emit (invoke h).

(** A request to the chat transport: a call into its library, which
    returns or raises as the transport says. *)
Definition request (ev : event) : M Z :=
  fun env h => ([ev], transport env h ev).

(** [random.choice(seq)] *)
Definition random_choice {A : Type} (seq : list A) : M A :=
  fun env _ =>
    match nth_error seq (random_index env mod List.length seq) with
    | Some x => ([], Return x)
    | None =>
        ([], Raise (mkException IndexError
                      "Cannot choose from an empty sequence"))
    end.

(** [d[key]] *)
Definition dict_index {V : Type} (d : dict V) (key : string) : M V :=
  match dict_lookup d key with
  | Some v => ret v
  | None => raise (mkException KeyError key)
  end.

(** Attribute access on [None] or on an object without that attribute. *)
Definition attribute_error {A : Type} (attribute : string) : M A :=
  raise (mkException AttributeError
           ("object has no attribute '" ++ attribute ++ "'")).

(* ================================================================== *)
(** * Bot content *)
(* ================================================================== *)

Definition BUSINESS_CATEGORIES : dict string :=
  [ ("tech", "🚀 Technology & Software");
    ("ecommerce", "🛒 E-commerce & Online Business");
    ("health", "🏥 Health & Wellness");
    ("food", "🍔 Food & Beverage");
    ("education", "📚 Education & Training");
    ("finance", "💰 Finance & Investment");
    ("marketing", "📱 Marketing & Social Media");
    ("sustainability", "🌱 Sustainability & Green Business");
    ("retail", "🏪 Retail & Consumer Goods");
    ("services", "🔧 Professional Services");
    ("entertainment", "🎬 Entertainment & Media");
    ("travel", "✈️ Travel & Tourism") ].

(* ================================================================== *)
(** * Bot class *)
(* ================================================================== *)

(** [query = update.callback_query], followed by a use of [query]. *)
Definition the_query (update : Update) (attribute : string)
  : M CallbackQuery :=
  match u_callback_query update with
  | Some query => ret query
  | None => attribute_error attribute
  end.

(** [update.message.reply_text(...)] *)
Definition message_reply_text (update : Update) (msg : string)
           (parse_mode : option ParseMode)
           (reply_markup : option InlineKeyboardMarkup) : M Z :=
  match u_message update with
  | Some _ => request (reply_text msg parse_mode reply_markup)
  | None => attribute_error "reply_text"
  end.

(** [start]: the /start command. *)
Definition start (update : Update) (context : CallbackContext) : M unit :=
  entered self_start ;;
  let welcome_message := escape_markdown_v2
    "🚀 *Welcome to Business Ideas Generator Bot!*

I can help you generate innovative business ideas across various categories using AI.

*Available Commands:*
• /start - Show this welcome message
• /categories - Browse business categories
• /random - Get a random business idea
• /help - Show help information

*How to use:*
1. Click on /categories to see all available business categories
2. Select a category that interests you
3. Get AI-generated business ideas with detailed information

Let's start your entrepreneurial journey! 🎯" in
  let keyboard :=
    [ [ mkButton "📋 Browse Categories" "show_categories" ];
      [ mkButton "🎲 Random Idea" "random_idea" ];
      [ mkButton "❓ Help" "help" ] ] in
  let reply_markup := keyboard in
  let welcome_message :=
    str_replace (str_replace welcome_message "\*" "*") "\•" "•" in
  message_reply_text update welcome_message (Some MARKDOWN_V2)
                     (Some reply_markup) ;;
  ret tt.

(** [range(start, stop, step)] for a positive step. *)
Fixpoint range_from (fuel start stop step : nat) : list nat :=
  match fuel with
  | O => []
  | S fuel' =>
      if (start <? stop)%nat
      then start :: range_from fuel' (start + step) stop step
      else []
  end.

Definition range (start stop step : nat) : list nat :=
  range_from stop start stop step.

(** The keyboard [show_categories] builds: the categories two to a row,
    then the row of the back button. *)
Definition categories_keyboard : InlineKeyboardMarkup :=
  let categories_list := dict_items BUSINESS_CATEGORIES in
  let n := List.length categories_list in
  let keyboard :=
    map (fun i =>
           map (fun j =>
                  let '(key, value) :=
                    nth j categories_list (EmptyString, EmptyString) in
                  mkButton value ("category_" ++ key))
               (range i (Nat.min (i + 2) n) 1))
        (range 0 n 2) in
  keyboard ++ [ [ mkButton "🔙 Back to Menu" "back_to_start" ] ].

(** [show_categories] *)
Definition show_categories (update : Update) (context : CallbackContext)
  : M unit :=
  entered self_show_categories ;;
  let message := escape_markdown_v2
    "🏢 *Choose a Business Category:*

Select a category to get tailored business ideas:" in
  let message := str_replace message "\*" "*" in
  let reply_markup := categories_keyboard in
  match u_callback_query update with
  | Some query =>
      request (edit_message_text message (Some MARKDOWN_V2)
                                 (Some reply_markup)) ;;
      ret tt
  | None =>
      message_reply_text update message (Some MARKDOWN_V2)
                         (Some reply_markup) ;;
      ret tt
  end.

(** The prompt of [generate_business_idea]. *)
Definition prompt (category_name : string) : string :=
  ("Generate a comprehensive and innovative business idea for the '"
   ++ category_name
   ++ "' category.

Please format your response with the following structure using markdown (use * for bold, not #):

*🚀 Business Idea: [Creative Business Name]*

*💡 Core Concept*
[Brief, compelling description of the business idea]

*🎯 Target Market*
[Define the target audience and market size]

*💰 Revenue Model*
[Explain how the business will make money]

*🔥 Unique Value Proposition*
[What makes this business special and competitive]

*📈 Market Opportunity*
[Market trends and opportunities]

*🛠️ Getting Started*
[3-4 practical steps to launch this business]

*💵 Estimated Startup Investment*
[Rough estimate of initial investment needed]

*⚡ Success Factors*
[Key factors for success in this business]

Ensure the idea is:
- Innovative and relevant to current market trends
- Practical and achievable
- Specific to the "
   ++ category_name
   ++ " sector
- Formatted with proper markdown for Telegram.
")%string.

(** The error card of [generate_business_idea], before its last
    [replace]. *)
Definition error_text (category_name : string) (e : exception) : string :=
  ("*❌ Error Generating Idea*

Sorry, I encountered an error while generating a business idea for *"
   ++ escape_markdown_v2 category_name
   ++ "*.

Please try again later or contact support if the issue persists.

*Error Details:* `"
   ++ escape_markdown_v2 (exc_str e)
   ++ "`")%string.

(** [generate_business_idea(category_name)] *)
Definition generate_business_idea (category_name : string) : M string :=
  try_except
    (env <- ask ;;
     match model env with
     | None =>
         raise (mkException Exception "Gemini AI model is not initialized.")
     | Some generate =>
         emit (generate_content (prompt category_name)) ;;
         lift (generate (prompt category_name))
     end)
    Exception
    (fun e =>
       emit (log ERROR ("Error generating business idea: " ++ exc_str e)) ;;
       ret (str_replace (error_text category_name e) "\*" "*")).

(** [error_handler(update, context)].  A callback query has no
    [effective_message] attribute. *)
Definition error_handler (update : option (Update + CallbackQuery))
           (context : CallbackContext) : M unit :=
  entered self_error_handler ;;
  env <- ask ;;
  emit (log ERROR ("Update " ++ repr env update ++ " caused error "
                   ++ match error context with
                      | Some e => exc_str e
                      | None => "None"
                      end)) ;;
  match update with
  | None => ret tt
  | Some (inr _) => attribute_error "effective_message"
  | Some (inl u) =>
      match effective_message u with
      | None => ret tt
      | Some _ =>
          try_except
            (let error_message := escape_markdown_v2
               "❌ *An error occurred*

Sorry, something went wrong. Please try again or use /start to return to the main menu." in
             let error_message := str_replace error_message "\*" "*" in
             request (reply_text error_message (Some MARKDOWN_V2) None) ;;
             ret tt)
            Exception
            (fun e =>
               emit (log ERROR ("Failed to send error message to user: "
                                ++ exc_str e)))
      end
  end.

(** [update_or_query.message] *)
Definition message_of (update_or_query : Update + CallbackQuery)
  : option Message :=
  match update_or_query with
  | inl u => u_message u
  | inr q => q_message q
  end.

(** The request one delivery of [msg] makes: [update_or_query
    .edit_message_text] when [is_query], [context.bot.send_message]
    otherwise.  Only a callback query has an [edit_message_text] method:
    there is no request when [update_or_query] is an update. *)
Definition delivery (update_or_query : Update + CallbackQuery)
           (is_query : bool) (chat_id : Z) (msg : string)
           (parse_mode : option ParseMode)
           (reply_markup : InlineKeyboardMarkup) : option event :=
  if is_query then
    match update_or_query with
    | inr _ => Some (edit_message_text msg parse_mode (Some reply_markup))
    | inl _ => None
    end
  else Some (send_message chat_id msg parse_mode (Some reply_markup)).

Definition deliver (update_or_query : Update + CallbackQuery)
           (is_query : bool) (chat_id : Z) (msg : string)
           (parse_mode : option ParseMode)
           (reply_markup : InlineKeyboardMarkup) : M Z :=
  match delivery update_or_query is_query chat_id msg parse_mode
                 reply_markup with
  | Some ev => request ev
  | None => attribute_error "edit_message_text"
  end.

(** The last statement of [_generate_and_send_idea] (its [try] and
    [except BadRequest]): send the idea, and fall back to plain text. *)
Definition send_idea_with_fallback
           (update_or_query : Update + CallbackQuery)
           (context : CallbackContext) (is_query : bool) (chat_id : Z)
           (business_idea : string) (reply_markup : InlineKeyboardMarkup)
  : M unit :=
  try_except
    (deliver update_or_query is_query chat_id business_idea
             (Some MARKDOWN_V2) reply_markup ;;
     ret tt)
    BadRequest
    (fun e =>
       if str_in "Can't parse entities" (exc_str e) then
         emit (log WARNING
                 ("Could not parse AI-generated markdown. Sending as plain text. Error: "
                  ++ exc_str e)) ;;
         let plain_text_idea := escape_markdown_v2 business_idea in
         deliver update_or_query is_query chat_id plain_text_idea
                 None reply_markup ;;
         ret tt
       else
         emit (log ERROR ("Telegram API error when sending idea: "
                          ++ exc_str e)) ;;
         error_handler (Some update_or_query) context).

(** [_generate_and_send_idea] *)
Definition _generate_and_send_idea
           (update_or_query : Update + CallbackQuery)
           (context : CallbackContext) (category_key category_name : string)
           (is_random : bool) (loading_msg_id : option Z) : M unit :=
  business_idea <- generate_business_idea category_name ;;
  let keyboard :=
    if is_random then
      [ [ mkButton "🎲 Another Random" "random_idea" ];
        [ mkButton "📋 Browse Categories" "show_categories" ];
        [ mkButton "🏠 Main Menu" "back_to_start" ] ]
    else
      [ [ mkButton "🔄 Generate Another" ("category_" ++ category_key) ];
        [ mkButton "📋 All Categories" "show_categories" ];
        [ mkButton "🏠 Main Menu" "back_to_start" ] ] in
  let reply_markup := keyboard in
  let is_query :=
    match message_of update_or_query with
    | Some _ => true
    | None => false
    end in
  chat_id <-
    match message_of update_or_query with
    | Some m => ret (m_chat_id m)
    | None =>
        match update_or_query with
        | inl u =>
            match effective_message u with
            | Some m => ret (m_chat_id m)
            | None => attribute_error "id"
            end
        | inr _ => attribute_error "effective_chat"
        end
    end ;;
  match loading_msg_id with
  | Some message_id =>
      if Z.eqb message_id 0 then ret tt
      else
        try_except
          (request (delete_message chat_id message_id) ;; ret tt)
          BadRequest
          (fun e =>
             emit (log WARNING ("Could not delete loading message: "
                                ++ exc_str e)))
  | None => ret tt
  end ;;
  send_idea_with_fallback update_or_query context is_query chat_id
                          business_idea reply_markup.

(** [handle_category_selection] *)
Definition handle_category_selection (update : Update)
           (context : CallbackContext) : M unit :=
  entered self_handle_category_selection ;;
  query <- the_query update "answer" ;;
  request answer ;;
  query_data <-
    match q_data query with
    | Some d => ret d
    | None => attribute_error "replace"
    end ;;
  let category_key := str_replace query_data "category_" EmptyString in
  let category_name :=
    dict_get BUSINESS_CATEGORIES category_key "Unknown Category" in
  let loading_message_text :=
    ("🔄 *Generating business idea for "
     ++ escape_markdown_v2 category_name
     ++ "\.\.\.*

Please wait while I create an innovative business concept for you\!")%string in
  let loading_message_text := str_replace loading_message_text "\*" "*" in
  request (edit_message_text loading_message_text (Some MARKDOWN_V2) None) ;;
  _generate_and_send_idea (inr query) context category_key category_name
                          false None.

(** The loading message of [random_business_idea]. *)
Definition random_loading_message_text (category_name : string) : string :=
  let loading_message_text :=
    ("🎲 *Generating random business idea\.\.\.*

_Category: "
     ++ escape_markdown_v2 category_name
     ++ "_

Please wait\!")%string in
  str_replace (str_replace loading_message_text "\*" "*") "\_" "_".

(** [random_business_idea] *)
Definition random_business_idea (update : Update)
           (context : CallbackContext) : M unit :=
  entered self_random_business_idea ;;
  category_key <- random_choice (dict_keys BUSINESS_CATEGORIES) ;;
  category_name <- dict_index BUSINESS_CATEGORIES category_key ;;
  match u_callback_query update with
  | Some query =>
      request answer ;;
      request (edit_message_text (random_loading_message_text category_name)
                                 (Some MARKDOWN_V2) None) ;;
      _generate_and_send_idea (inr query) context category_key
                              category_name true None
  | None =>
      message_id <-
        message_reply_text update
          (random_loading_message_text category_name)
          (Some MARKDOWN_V2) None ;;
      _generate_and_send_idea (inl update) context category_key
                              category_name true (Some message_id)
  end.

(** [show_help] *)
Definition show_help (update : Update) (context : CallbackContext)
  : M unit :=
  entered self_show_help ;;
  let help_text := escape_markdown_v2
    "📘 *Help & Information*

*What is this bot?*
This bot generates innovative business ideas using Google's Gemini AI across various categories.

*Available Commands:*
• /start - Main menu and welcome
• /categories - Browse all business categories
• /random - Get a random business idea
• /help - Show this help message

*How it works:*
1. Choose a business category or get a random idea
2. The bot uses AI to generate detailed business concepts
3. Each idea includes market analysis, revenue models, and startup steps

*Support:*
For issues or feedback, please contact the developer.
" in
  let help_text := str_replace (str_replace help_text "\*" "*") "\•" "•" in
  let keyboard :=
    [ [ mkButton "📋 Browse Categories" "show_categories" ];
      [ mkButton "🏠 Main Menu" "back_to_start" ] ] in
  let reply_markup := keyboard in
  match u_callback_query update with
  | Some query =>
      request (edit_message_text help_text (Some MARKDOWN_V2)
                                 (Some reply_markup)) ;;
      ret tt
  | None =>
      message_reply_text update help_text (Some MARKDOWN_V2)
                         (Some reply_markup) ;;
      ret tt
  end.

(** [back_to_start] *)
Definition back_to_start (update : Update) (context : CallbackContext)
  : M unit :=
  entered self_back_to_start ;;
  query <- the_query update "answer" ;;
  request answer ;;
  let welcome_message := escape_markdown_v2
    "🚀 *Business Ideas Generator Bot*

Ready to discover your next business opportunity?

*What would you like to do?*" in
  let welcome_message := str_replace welcome_message "\*" "*" in
  let keyboard :=
    [ [ mkButton "📋 Browse Categories" "show_categories" ];
      [ mkButton "🎲 Random Idea" "random_idea" ];
      [ mkButton "❓ Help" "help" ] ] in
  let reply_markup := keyboard in
  request (edit_message_text welcome_message (Some MARKDOWN_V2)
                             (Some reply_markup)) ;;
  ret tt.

(** The dispatch table of [callback_query_handler]. *)
Definition route_map : dict (Update -> CallbackContext -> M unit) :=
  [ ("show_categories", show_categories);
    ("random_idea", random_business_idea);
    ("help", show_help);
    ("back_to_start", back_to_start) ].

(** [callback_query_handler].  [None in route_map] is false, and [None]
    has no [startswith]. *)
Definition callback_query_handler (update : Update)
           (context : CallbackContext) : M unit :=
  entered self_callback_query_handler ;;
  query <- the_query update "data" ;;
  match q_data query with
  | Some query_data =>
      if dict_contains route_map query_data then
        method <- dict_index route_map query_data ;;
        method update context
      else if startswith query_data "category_" then
        handle_category_selection update context
      else ret tt
  | None => attribute_error "startswith"
  end.

(** The library's dispatcher around one call of a registered callback
    ([Dispatcher.process_update]): an exception that leaves the callback is
    handed, as [context.error], to the error handler that [run] registers
    ([dispatcher.add_error_handler(self.error_handler)]) together with the
    update; an exception that leaves the error handler is logged by the
    library. *)
Definition process_update (callback : Update -> CallbackContext -> M unit)
           (update : Update) : M unit :=
  try_except
    (callback update (mkContext None))
    Exception
    (fun e =>
       try_except
         (error_handler (Some (inl update)) (mkContext (Some e)))
         Exception
         (fun _ =>
            emit (log ERROR
              "An uncaught error was raised while handling the error."))).

(** [str(port)] for the log line of [run]. *)
Definition str_of_Z (z : Z) : string :=
  NilEmpty.string_of_int (Z.to_int z).

(** [run].  A value of the environment counts as set when it is a
    non-empty string.  The calls into the transport's library
    ([Updater(...)], [add_handler], [start_webhook], [start_polling],
    [idle]) are requests like the others: each may raise, and then [run]
    ends there. *)
Definition run : M unit :=
  env <- ask ;;
  match TELEGRAM_BOT_TOKEN env with
  | None | Some EmptyString =>
      emit (log CRITICAL
        "❌ TELEGRAM_BOT_TOKEN environment variable not set! The bot cannot start.")
  | Some token =>
      match GEMINI_API_KEY env with
      | None | Some EmptyString =>
          emit (log CRITICAL
            "❌ GEMINI_API_KEY environment variable not set! The bot cannot start.")
      | Some _ =>
          match model env with
          | None =>
              emit (log CRITICAL
                "❌ Gemini AI model failed to initialize. Please check API key and configuration.")
          | Some _ =>
              request (Updater token) ;;
              request (add_handler (CommandHandler "start" self_start)) ;;
              request (add_handler (CommandHandler "categories"
                                                   self_show_categories)) ;;
              request (add_handler
                         (CommandHandler "random"
                                         self_random_business_idea)) ;;
              request (add_handler (CommandHandler "help" self_show_help)) ;;
              request (add_handler (CallbackQueryHandler
                                      self_callback_query_handler)) ;;
              request (add_error_handler self_error_handler) ;;
              match WEBHOOK_URL env with
              | None | Some EmptyString =>
                  emit (log INFO "🚀 Starting bot in polling mode...") ;;
                  request start_polling ;;
                  emit (log INFO "✅ Bot is running! Press Ctrl+C to stop.")
              | Some webhook_url =>
                  port <- lift (PORT env) ;;
                  emit (log INFO ("🚀 Starting bot in webhook mode on port "
                                  ++ str_of_Z port ++ "...")) ;;
                  request (start_webhook "0.0.0.0" port token
                                         (webhook_url ++ "/" ++ token)) ;;
                  emit (log INFO ("✅ Webhook set to " ++ webhook_url ++ "/"
                                  ++ token))
              end ;;
              request idle ;;
              ret tt
          end
      end
  end.

(* ================================================================== *)
(** * Notions used to state the properties *)
(* ================================================================== *)

(** What the escaper does to one character. *)
Definition escape_char (c : ascii) : string :=
  if is_reserved c then String backslash (str1 c) else str1 c.

(** The escaper with its insertions made visible: every character of the
    output comes with a mark telling whether the escaper inserted it. *)
Fixpoint escape_tagged (s : string) : list (ascii * bool) :=
  match s with
  | EmptyString => []
  | String c s' =>
      (if is_reserved c then [(backslash, true); (c, false)]
       else [(c, false)]) ++ escape_tagged s'
  end.

(** The eight section headers the prompt asks for, as the lines of the
    prompt and as their bare titles. *)
Definition section_headers : list string :=
  [ "*💡 Core Concept*"; "*🎯 Target Market*"; "*💰 Revenue Model*";
    "*🔥 Unique Value Proposition*"; "*📈 Market Opportunity*";
    "*🛠️ Getting Started*"; "*💵 Estimated Startup Investment*";
    "*⚡ Success Factors*" ].

Definition section_titles : list string :=
  [ "Core Concept"; "Target Market"; "Revenue Model";
    "Unique Value Proposition"; "Market Opportunity"; "Getting Started";
    "Estimated Startup Investment"; "Success Factors" ].


(** The handlers the router dispatches to that [ev] enters: the four menu
    handlers and the category selection. *)
Definition dispatch_of (ev : event) : list handler :=
  match ev with
  | invoke self_show_categories => [self_show_categories]
  | invoke self_random_business_idea => [self_random_business_idea]
  | invoke self_show_help => [self_show_help]
  | invoke self_back_to_start => [self_back_to_start]
  | invoke self_handle_category_selection => [self_handle_category_selection]
  | _ => []
  end.

(** The handlers dispatched to in the course of a trace, in order. *)
Definition dispatched (tr : list event) : list handler :=
  flat_map dispatch_of tr.

(** Every event a computation adds satisfies [P], whatever the
    environment and the history. *)
Definition emits {A : Type} (P : event -> Prop) (m : M A) : Prop :=
  forall env h, Forall P (fst (m env h)).

(** An event that enters none of the dispatched handlers. *)
Definition quiet (ev : event) : Prop := dispatch_of ev = [].

(** The outcome of a computation that first does [ev]. *)
Definition after {A : Type} (ev : event) (x : list event * result A)
  : list event * result A :=
  (ev :: fst x, snd x).

(** The update of a button press with callback data [d]. *)
Definition button_press (d : string) (qm um : option Message) : Update :=
  mkUpdate (Some (mkCallbackQuery (Some d) qm)) um.

(** Surroundings in which everything succeeds: the transport accepts every
    request, the completion service answers, the secrets are set. *)
Definition friendly_environment : environment :=
  mkEnvironment (fun _ _ => Return 1%Z)
                (Some (fun _ => Return "*A bold idea*"))
                0 (fun _ => "<update>")
                (Some "token") (Some "key") None (Return 8443%Z).

(** A delivery of a message text: an edit or a send. *)
Definition is_delivery (ev : event) : bool :=
  match ev with
  | edit_message_text _ _ _ | send_message _ _ _ _ => true
  | _ => false
  end.

Definition deliveries (tr : list event) : list event :=
  filter is_delivery tr.

Definition handler_eqb (h h' : handler) : bool :=
  match h, h' with
  | self_start, self_start
  | self_show_categories, self_show_categories
  | self_random_business_idea, self_random_business_idea
  | self_show_help, self_show_help
  | self_back_to_start, self_back_to_start
  | self_handle_category_selection, self_handle_category_selection
  | self_callback_query_handler, self_callback_query_handler
  | self_error_handler, self_error_handler => true
  | _, _ => false
  end.

Definition enters (h : handler) (ev : event) : bool :=
  match ev with
  | invoke h' => handler_eqb h h'
  | _ => false
  end.

(** How many times the handler [h] is entered in a trace. *)
Definition entries (h : handler) (tr : list event) : nat :=
  List.length (filter (enters h) tr).

(** An event that is neither a delivery nor an entry into the error
    handler. *)
Definition calm (ev : event) : Prop :=
  is_delivery ev || enters self_error_handler ev = false.

(** Surroundings in which the transport times out on every request. *)
Definition timed_out : exception := mkException TelegramError "Timed out".

Definition timing_out_environment : environment :=
  mkEnvironment (fun _ _ => Raise timed_out)
                (Some (fun _ => Return "*A bold idea*"))
                0 (fun _ => "<update>")
                (Some "token") (Some "key") None (Return 8443%Z).

(** Surroundings in which the transport rejects every message sent in
    MarkdownV2 mode and accepts everything else. *)
Definition cannot_parse : exception :=
  mkException BadRequest "Can't parse entities: can't find end of bold entity".


(** Surroundings in which the transport times out on the delivery of an
    idea, the messages that carry a keyboard, and accepts the rest. *)
Definition idea_timing_out_environment : environment :=
  mkEnvironment
    (fun _ ev =>
       match ev with
       | edit_message_text _ _ (Some _) => Raise timed_out
       | _ => Return 1%Z
       end)
    (Some (fun _ => Return "*A bold idea*"))
    0 (fun _ => "<update>")
    (Some "token") (Some "key") None (Return 8443%Z).

Definition a_query : CallbackQuery :=
  mkCallbackQuery (Some "category_tech") (Some (mkMessage 10 20)).

(** The failure of the completion call made for [category_name], if it
    fails: the client was never constructed, or its call raises. *)
Definition completion_failure (env : environment) (category_name : string)
  : option exception :=
  match model env with
  | None =>
      Some (mkException Exception "Gemini AI model is not initialized.")
  | Some generate =>
      match generate (prompt category_name) with
      | Raise e => Some e
      | Return _ => None
      end
  end.

(** [prev] tells whether the character before [s] is [a]: the characters
    [a b] stand next to each other in [s], or across its left end. *)
Fixpoint bigram_after (prev : bool) (a b : ascii) (s : string) : bool :=
  match s with
  | EmptyString => false
  | String c s' =>
      (prev && Ascii.eqb c b) || bigram_after (Ascii.eqb c a) a b s'
  end.

(** The last character of [s] is [a]; [prev] answers for the empty [s]. *)
Fixpoint last_is (prev : bool) (a : ascii) (s : string) : bool :=
  match s with
  | EmptyString => prev
  | String c s' => last_is (Ascii.eqb c a) a s'
  end.

(** [s.endswith(a)] for a character [a]. *)
Definition ends_with (s : string) (a : ascii) : bool := last_is false a s.

(** [a in s] for a character [a]. *)
Fixpoint has_char (a : ascii) (s : string) : bool :=
  match s with
  | EmptyString => false
  | String c s' => Ascii.eqb c a || has_char a s'
  end.

(** Some character of [s] is reserved. *)
Fixpoint has_reserved (s : string) : bool :=
  match s with
  | EmptyString => false
  | String c s' => is_reserved c || has_reserved s'
  end.

(** Every reserved character of [s] stands right after a backslash;
    [prev] tells whether the character before [s] is one. *)
Fixpoint marked_from (prev : bool) (s : string) : bool :=
  match s with
  | EmptyString => true
  | String c s' =>
      (negb (is_reserved c) || prev) && marked_from (Ascii.eqb c backslash) s'
  end.

Definition marked (s : string) : bool := marked_from false s.

(** The reading of the gateway contract under which the error card always
    contains the category name as it was given. *)
Definition failure_card_names_category : Prop :=
  forall category_name env hist e,
    completion_failure env category_name = Some e ->
    exists card,
      snd (generate_business_idea category_name env hist) = Return card
      /\ card <> EmptyString
      /\ str_in category_name card = true.

(** Surroundings without a completion client. *)
Definition unconfigured_environment : environment :=
  mkEnvironment (fun _ _ => Return 1%Z) None 0 (fun _ => "<update>")
                (Some "token") (Some "key") None (Return 8443%Z).

(** What [handle_category_selection] does once the category is resolved:
    the loading message, then the generation and the delivery. *)
Definition selection_path (query : CallbackQuery) (context : CallbackContext)
           (category_key category_name : string) : M unit :=
  request
    (edit_message_text
       (str_replace
          ("🔄 *Generating business idea for "
           ++ escape_markdown_v2 category_name
           ++ "\.\.\.*

Please wait while I create an innovative business concept for you\!")
          "\*" "*")
       (Some MARKDOWN_V2) None) ;;
  _generate_and_send_idea (inr query) context category_key category_name
                          false None.

(** The transport accepts every request. *)
Definition accepting (env : environment) : Prop :=
  forall h ev, exists id, transport env h ev = Return id.

(** An event that is not a delivery. *)
Definition not_delivery (ev : event) : Prop := is_delivery ev = false.

(** A computation that delivers at most [n] times. *)
Definition delivers_at_most {A : Type} (n : nat) (m : M A) : Prop :=
  forall env h, List.length (deliveries (fst (m env h))) <= n.

(** The number of reserved characters of [s]. *)
Fixpoint count_reserved (s : string) : nat :=
  match s with
  | EmptyString => 0
  | String c s' => (if is_reserved c then 1 else 0) + count_reserved s'
  end.

(** A request to the chat transport. *)
Definition is_request (ev : event) : bool :=
  match ev with
  | answer | edit_message_text _ _ _ | reply_text _ _ _
  | send_message _ _ _ _ | delete_message _ _ => true
  | _ => false
  end.

Definition requests (tr : list event) : list event := filter is_request tr.

(** The callback identifier [d] is one the router acts on. *)
Definition routable (d : string) : bool :=
  dict_contains route_map d || startswith d "category_".

(** The keyboard an event carries. *)
Definition markup_of (ev : event) : option InlineKeyboardMarkup :=
  match ev with
  | edit_message_text _ _ m | reply_text _ _ m | send_message _ _ _ m => m
  | _ => None
  end.

Definition keyboard_routable (keyboard : InlineKeyboardMarkup) : bool :=
  forallb (fun b => routable (callback_data b)) (concat keyboard).

(** Every button the event shows carries an identifier the router acts
    on. *)
Definition buttons_routable (ev : event) : Prop :=
  match markup_of ev with
  | Some keyboard => keyboard_routable keyboard
  | None => true
  end = true.

(** A value of the environment is set: it is a non-empty string. *)
Definition is_set (v : option string) : bool :=
  match v with
  | Some (String _ _) => true
  | _ => false
  end.

(** The start of a transport. *)
Definition is_start (ev : event) : bool :=
  match ev with
  | start_webhook _ _ _ _ | start_polling => true
  | _ => false
  end.

(** The rows [show_categories] builds from a list of categories. *)
Definition category_rows (categories_list : list (string * string))
  : InlineKeyboardMarkup :=
  let n := List.length categories_list in
  map (fun i =>
         map (fun j =>
                let '(key, value) :=
                  nth j categories_list (EmptyString, EmptyString) in
                mkButton value ("category_" ++ key))
             (range i (Nat.min (i + 2) n) 1))
      (range 0 n 2).

(** The button of a category. *)
Definition category_button (item : string * string) : InlineKeyboardButton :=
  mkButton (snd item) ("category_" ++ fst item).

(** An update that carries a command: a message, no callback query. *)
Definition command (m : Message) : Update := mkUpdate None (Some m).

(** Escaping with some reserved characters let through: the characters
    [keep] accepts are not prefixed. *)
Definition escape_except (keep : ascii -> bool) (s : string) : string :=
  str_flat_map
    (fun c =>
       if is_reserved c && negb (keep c)
       then String backslash (str1 c) else str1 c)
    s.

(** The keyboard [_generate_and_send_idea] puts under an idea. *)
Definition idea_keyboard (is_random : bool) (category_key : string)
  : InlineKeyboardMarkup :=
  if is_random then
    [ [ mkButton "🎲 Another Random" "random_idea" ];
      [ mkButton "📋 Browse Categories" "show_categories" ];
      [ mkButton "🏠 Main Menu" "back_to_start" ] ]
  else
    [ [ mkButton "🔄 Generate Another" ("category_" ++ category_key) ];
      [ mkButton "📋 All Categories" "show_categories" ];
      [ mkButton "🏠 Main Menu" "back_to_start" ] ].

(** Surroundings in which the transport finds no message to delete and
    accepts everything else. *)
Definition undeletable_environment : environment :=
  mkEnvironment
    (fun _ ev =>
       match ev with
       | delete_message _ _ =>
           Raise (mkException BadRequest "Message to delete not found")
       | _ => Return 1%Z
       end)
    (Some (fun _ => Return "*A bold idea*"))
    0 (fun _ => "<update>")
    (Some "token") (Some "key") None (Return 8443%Z).

(** Everything [run] does, in order, once its three guards are passed: the
    updater, the five handlers and the error handler, the start of the one
    transport the environment asks for, and the idling.  When the port
    cannot be read in webhook mode, [run] ends before the start. *)
Definition startup_sequence (env : environment) (token : string)
  : list event :=
  [ Updater token;
    add_handler (CommandHandler "start" self_start);
    add_handler (CommandHandler "categories" self_show_categories);
    add_handler (CommandHandler "random" self_random_business_idea);
    add_handler (CommandHandler "help" self_show_help);
    add_handler (CallbackQueryHandler self_callback_query_handler);
    add_error_handler self_error_handler ]
  ++ match WEBHOOK_URL env with
     | None | Some EmptyString =>
         [ log INFO "🚀 Starting bot in polling mode...";
           start_polling;
           log INFO "✅ Bot is running! Press Ctrl+C to stop." ]
     | Some webhook_url =>
         match PORT env with
         | Return port =>
             [ log INFO ("🚀 Starting bot in webhook mode on port "
                         ++ str_of_Z port ++ "...");
               start_webhook "0.0.0.0" port token
                             (webhook_url ++ "/" ++ token);
               log INFO ("✅ Webhook set to " ++ webhook_url ++ "/"
                         ++ token) ]
         | Raise _ => []
         end
     end
  ++ [ idle ].

(** In the environment [env] the computation [m] goes through the events
    [sequence] in order: whatever fails, it has done an initial part of
    them, and when it returns it has done them all. *)
Definition follows {A : Type} (env : environment) (sequence : list event)
           (m : M A) : Prop :=
  forall h,
    (exists rest, sequence = fst (m env h) ++ rest)
    /\ (forall a, snd (m env h) = Return a -> fst (m env h) = sequence).
(* ================================================================== *)
(** * Properties of the string operations *)
(* ================================================================== *)

Lemma str_flat_map_ext (f g : ascii -> string) (s : string) :
  (forall c, f c = g c) -> str_flat_map f s = str_flat_map g s.
Proof.
  intros E. induction s as [|c s IH]; simpl; [reflexivity|].
  now rewrite E, IH.
Qed.

(** The pattern of [escape_markdown_v2] is a capture group around the class
    of the reserved characters, and its template is a backslash followed by
    the captured character. *)
Lemma escape_pattern_compiles :
  re.compile ("([" ++ re.escape escape_chars ++ "])")
  = Some (re.Capture (re.CharClass (list_ascii_of_string escape_chars))).
Proof. reflexivity. Qed.

Lemma escape_template_parses :
  re.parse_template "\\\1" = Some [re.Lit backslash; re.GroupRef 1].
Proof. reflexivity. Qed.

(** The substitution never fails: [escape_markdown_v2] is the result of
    [re.sub]. *)
Lemma escape_markdown_v2_sub (text : string) :
  re.sub ("([" ++ re.escape escape_chars ++ "])") "\\\1" text
  = Some (escape_markdown_v2 text).
Proof.
  unfold escape_markdown_v2, re.sub.
  rewrite escape_pattern_compiles, escape_template_parses.
  reflexivity.
Qed.

Lemma escape_markdown_v2_chars (text : string) :
  escape_markdown_v2 text = str_flat_map escape_char text.
Proof.
  unfold escape_markdown_v2, re.sub.
  rewrite escape_pattern_compiles, escape_template_parses.
  cbn [forallb re.valid_ref re.groups List.length Nat.leb andb].
  unfold re.sub_compiled. apply str_flat_map_ext. intros c.
  unfold escape_char, is_reserved. cbn [re.matches].
  destruct (existsb (Ascii.eqb c) (list_ascii_of_string escape_chars));
    reflexivity.
Qed.

Lemma escape_markdown_v2_cons (c : ascii) (s : string) :
  escape_markdown_v2 (String c s)
  = (escape_char c ++ escape_markdown_v2 s)%string.
Proof. now rewrite !escape_markdown_v2_chars. Qed.

Lemma backslash_not_reserved : is_reserved backslash = false.
Proof. reflexivity. Qed.

(** The reserved characters are the eighteen characters of the comment in
    the source. *)
Lemma is_reserved_iff (c : ascii) :
  is_reserved c = true <->
  In c ["_"; "*"; "["; "]"; "("; ")"; "~"; "`"; ">"; "#"; "+"; "-"; "=";
        "|"; "{"; "}"; "."; "!"]%char.
Proof.
  unfold is_reserved. rewrite existsb_exists. split.
  - intros (x & Hin & Heq). apply Ascii.eqb_eq in Heq. subst x. exact Hin.
  - intros Hin. exists c. split; [exact Hin | apply Ascii.eqb_refl].
Qed.

(** C4: the output of the escaper is its input in which every character of
    the reserved set [_*[]()~`>#+-=|{}.!] is prefixed by a backslash, every
    other character staying unchanged at its place. *)
Theorem escape_markdown_v2_prefixes_reserved :
  forall text : string,
    escape_markdown_v2 text
    = str_flat_map
        (fun c =>
           if in_dec ascii_dec c
                ["_"; "*"; "["; "]"; "("; ")"; "~"; "`"; ">"; "#"; "+"; "-";
                 "="; "|"; "{"; "}"; "."; "!"]%char
           then String "\" (String c EmptyString)
           else String c EmptyString)
        text.
Proof.
  intros text. rewrite escape_markdown_v2_chars.
  apply str_flat_map_ext. intros c. unfold escape_char.
  destruct (in_dec ascii_dec c _) as [Hin | Hout].
  - apply is_reserved_iff in Hin. now rewrite Hin.
  - destruct (is_reserved c) eqn:E; [|reflexivity].
    apply is_reserved_iff in E. contradiction.
Qed.

(** C3: removing the escape markers from the escaper's output gives the
    original string back, whatever reserved characters it contains. *)
Theorem escape_markdown_v2_round_trip :
  forall text : string,
    remove_escape_markers (escape_markdown_v2 text) = text.
Proof.
  intros text. induction text as [|c s IH]; [reflexivity|].
  rewrite escape_markdown_v2_cons. unfold escape_char.
  destruct (is_reserved c) eqn:Hc.
  - cbn [append str1 remove_escape_markers].
    rewrite Ascii.eqb_refl, Hc. cbn [andb]. now rewrite IH.
  - cbn [append str1].
    destruct s as [|d s'].
    + reflexivity.
    + rewrite escape_markdown_v2_cons in *. unfold escape_char in *.
      destruct (is_reserved d) eqn:Hd.
      * cbn [append str1] in *.
        cbn [remove_escape_markers].
        rewrite backslash_not_reserved, andb_false_r.
        cbn [remove_escape_markers] in IH. now rewrite IH.
      * cbn [append str1] in *.
        cbn [remove_escape_markers].
        rewrite Hd, andb_false_r.
        cbn [remove_escape_markers] in IH. now rewrite IH.
Qed.

(** The characters of the tagged output are the escaper's output, and the
    characters the escaper did not insert are the input: the round trip
    takes away the inserted markers and nothing else. *)
Lemma escape_tagged_output (text : string) :
  string_of_list_ascii (map fst (escape_tagged text))
  = escape_markdown_v2 text.
Proof.
  induction text as [|c s IH]; [reflexivity|].
  rewrite escape_markdown_v2_cons. unfold escape_char.
  cbn [escape_tagged]. destruct (is_reserved c);
    cbn [app map fst string_of_list_ascii append str1]; now rewrite IH.
Qed.

Lemma escape_tagged_input (text : string) :
  string_of_list_ascii
    (map fst (filter (fun x => negb (snd x)) (escape_tagged text)))
  = text.
Proof.
  induction text as [|c s IH]; [reflexivity|].
  cbn [escape_tagged]. destruct (is_reserved c);
    cbn [app filter snd negb map fst string_of_list_ascii];
    now rewrite IH.
Qed.

(* ================================================================== *)
(** * The prompt *)
(* ================================================================== *)

Lemma dict_lookup_In {V : Type} (d : dict V) (key : string) (v : V) :
  dict_lookup d key = Some v -> In (key, v) d.
Proof.
  induction d as [|[k w] d IH]; simpl; [discriminate|].
  destruct (String.eqb_spec key k) as [-> | _].
  - intros [= ->]. now left.
  - intros H. right. now apply IH.
Qed.

Lemma prefix_refl_app (a b : string) : prefix a (a ++ b) = true.
Proof.
  induction a as [|c a IH]; simpl; [now destruct b|].
  destruct (ascii_dec c c); [exact IH | contradiction].
Qed.

Lemma str_in_app_r (sub a b : string) :
  str_in sub b = true -> str_in sub (a ++ b) = true.
Proof.
  intros H. induction a as [|c a IH]; simpl; [exact H|].
  rewrite IH. apply orb_true_r.
Qed.

Lemma str_in_middle (a x b : string) : str_in x (a ++ x ++ b) = true.
Proof.
  apply str_in_app_r. destruct x as [|c x]; simpl.
  - now destruct b.
  - destruct (ascii_dec c c); [|contradiction].
    now rewrite prefix_refl_app.
Qed.

(** C7: for every key of the category table, the prompt built for its
    display label contains that label verbatim and contains each of the
    eight section headers exactly once. *)
Theorem prompt_has_label_and_sections :
  forall key label : string,
    dict_lookup BUSINESS_CATEGORIES key = Some label ->
    str_in label (prompt label) = true
    /\ (forall header, In header section_headers ->
                       occurrences header (prompt label) = 1)
    /\ (forall title, In title section_titles ->
                      occurrences title (prompt label) = 1).
Proof.
  intros key label Hk. split.
  - unfold prompt. apply str_in_middle.
  - apply dict_lookup_In in Hk.
    unfold BUSINESS_CATEGORIES in Hk. simpl in Hk.
    split; intros h Hh; simpl in Hh;
      repeat (destruct Hk as [Hk | Hk];
              [ injection Hk as _ <-;
                repeat (destruct Hh as [<- | Hh]; [vm_compute; reflexivity|]);
                contradiction | ]);
      contradiction.
Qed.

Lemma prompt_has_label_and_sections_witness :
  dict_lookup BUSINESS_CATEGORIES "travel" = Some "✈️ Travel & Tourism"
  /\ str_in "✈️ Travel & Tourism" (prompt "✈️ Travel & Tourism") = true.
Proof.
  split; [reflexivity|].
  apply (prompt_has_label_and_sections "travel" "✈️ Travel & Tourism").
  reflexivity.
Defined.

(* ================================================================== *)
(** * Reasoning about the events of a computation *)
(* ================================================================== *)

Section Emits.

Variable P : event -> Prop.

Lemma emits_ret {A : Type} (a : A) : emits P (ret a).
Proof. intros env h. constructor. Qed.

Lemma emits_raise {A : Type} (e : exception) : emits P (@raise A e).
Proof. intros env h. constructor. Qed.

Lemma emits_attribute_error {A : Type} (a : string) :
  emits P (@attribute_error A a).
Proof. apply emits_raise. Qed.

Lemma emits_ask : emits P ask.
Proof. intros env h. constructor. Qed.

Lemma emits_lift {A : Type} (r : result A) : emits P (lift r).
Proof. intros env h. constructor. Qed.

Lemma emits_emit (ev : event) : P ev -> emits P (emit ev).
Proof. intros H env h. constructor; [exact H | constructor]. Qed.

Lemma emits_request (ev : event) : P ev -> emits P (request ev).
Proof. intros H env h. constructor; [exact H | constructor]. Qed.

Lemma emits_random_choice {A : Type} (l : list A) :
  emits P (random_choice l).
Proof.
  intros env h. unfold random_choice.
  destruct (nth_error l _); constructor.
Qed.

Lemma emits_dict_index {V : Type} (d : dict V) (key : string) :
  emits P (dict_index d key).
Proof.
  unfold dict_index. destruct (dict_lookup d key);
    [apply emits_ret | apply emits_raise].
Qed.

Lemma emits_bind {A B : Type} (m : M A) (k : A -> M B) :
  emits P m -> (forall a, emits P (k a)) -> emits P (bind m k).
Proof.
  intros Hm Hk env h. unfold bind.
  specialize (Hm env h). destruct (m env h) as [evs [a | e]]; simpl in *.
  - specialize (Hk a env (h ++ evs)).
    destruct (k a env (h ++ evs)) as [evs' r]; simpl in *.
    apply Forall_app. now split.
  - exact Hm.
Qed.

Lemma emits_try_except {A : Type} (m : M A) (cls : exception_class)
      (k : exception -> M A) :
  emits P m -> (forall e, emits P (k e)) -> emits P (try_except m cls k).
Proof.
  intros Hm Hk env h. unfold try_except.
  specialize (Hm env h). destruct (m env h) as [evs [a | e]]; simpl in *.
  - exact Hm.
  - destruct (catches cls e); simpl; [|exact Hm].
    specialize (Hk e env (h ++ evs)).
    destruct (k e env (h ++ evs)) as [evs' r]; simpl in *.
    apply Forall_app. now split.
Qed.

End Emits.

Create HintDb emits discriminated.

#[export] Hint Resolve emits_ret emits_raise emits_attribute_error emits_ask
  emits_lift emits_random_choice emits_dict_index : emits.

(** One step of the proof that a computation emits only events of a given
    kind: the structure of the program is followed, a fact already in the
    database is used for a call. *)
Ltac emits_step :=
  match goal with
  | |- emits _ (bind _ _) => apply emits_bind; [| intros ?]
  | |- emits _ (try_except _ _ _) => apply emits_try_except; [| intros ?]
  | |- emits _ (emit _) => apply emits_emit; reflexivity
  | |- emits _ (entered _) => apply emits_emit; reflexivity
  | |- emits _ (request _) => apply emits_request; reflexivity
  | |- emits _ (match ?x with _ => _ end) => destruct x
  | |- emits _ _ => solve [auto with emits]
  | |- emits _ _ => progress cbv zeta
  end.

Ltac emits_auto := repeat emits_step.

Lemma quiet_the_query update attribute :
  emits quiet (the_query update attribute).
Proof. unfold the_query. emits_auto. Qed.

Lemma quiet_message_reply_text update msg parse_mode reply_markup :
  emits quiet (message_reply_text update msg parse_mode reply_markup).
Proof. unfold message_reply_text. emits_auto. Qed.

#[export] Hint Resolve quiet_the_query quiet_message_reply_text : emits.

Lemma quiet_generate_business_idea (category_name : string) :
  emits quiet (generate_business_idea category_name).
Proof. unfold generate_business_idea. emits_auto. Qed.

Lemma quiet_error_handler update context :
  emits quiet (error_handler update context).
Proof. unfold error_handler. emits_auto. Qed.

#[export] Hint Resolve quiet_generate_business_idea quiet_error_handler
  : emits.

Lemma quiet_deliver uq is_query chat_id msg parse_mode reply_markup :
  emits quiet (deliver uq is_query chat_id msg parse_mode reply_markup).
Proof.
  unfold deliver, delivery.
  destruct is_query; [destruct uq|]; emits_auto.
Qed.

#[export] Hint Resolve quiet_deliver : emits.

Lemma quiet_send_idea_with_fallback uq context is_query chat_id idea markup :
  emits quiet (send_idea_with_fallback uq context is_query chat_id idea
                                       markup).
Proof. unfold send_idea_with_fallback. emits_auto. Qed.

#[export] Hint Resolve quiet_send_idea_with_fallback : emits.

Lemma quiet_generate_and_send_idea uq context key name is_random loading :
  emits quiet (_generate_and_send_idea uq context key name is_random
                                       loading).
Proof. unfold _generate_and_send_idea. emits_auto. Qed.

#[export] Hint Resolve quiet_generate_and_send_idea : emits.

(* ================================================================== *)
(** * Running computations *)
(* ================================================================== *)

Lemma run_bind_ret {A B : Type} (a : A) (k : A -> M B) env h :
  bind (ret a) k env h = k a env h.
Proof.
  unfold bind, ret. rewrite app_nil_r.
  now destruct (k a env h).
Qed.

Lemma emits_bind_ret {A B : Type} (P : event -> Prop) (a : A)
      (k : A -> M B) :
  emits P (k a) -> emits P (bind (ret a) k).
Proof. intros H env h. rewrite run_bind_ret. apply H. Qed.

Lemma run_bind_ask {B : Type} (k : environment -> M B) env h :
  bind ask k env h = k env env h.
Proof.
  unfold bind, ask. rewrite app_nil_r.
  now destruct (k env env h).
Qed.

Lemma run_bind_emit {B : Type} (ev : event) (k : unit -> M B) env h :
  bind (emit ev) k env h = after ev (k tt env (h ++ [ev])).
Proof.
  unfold bind, emit, after.
  now destruct (k tt env (h ++ [ev])).
Qed.

Lemma run_bind_request {B : Type} (ev : event) (k : Z -> M B) env h :
  bind (request ev) k env h
  = match transport env h ev with
    | Return id => after ev (k id env (h ++ [ev]))
    | Raise e => ([ev], Raise e)
    end.
Proof.
  unfold bind, request, after.
  destruct (transport env h ev); [|reflexivity].
  now destruct (k a env (h ++ [ev])).
Qed.

Lemma fst_request_ret (ev : event) env h :
  fst (bind (request ev) (fun _ => ret tt) env h) = [ev].
Proof.
  rewrite run_bind_request. now destruct (transport env h ev).
Qed.

Lemma dispatched_quiet (tr : list event) :
  Forall quiet tr -> dispatched tr = [].
Proof.
  induction 1 as [|ev tr Hev _ IH]; [reflexivity|].
  unfold dispatched in *. simpl. now rewrite Hev, IH.
Qed.

Lemma dispatched_entered {A : Type} (h : handler) (m : M A) env hist :
  emits quiet m ->
  dispatched (fst (bind (entered h) (fun _ => m) env hist))
  = dispatch_of (invoke h).
Proof.
  intros Hm. unfold entered. rewrite run_bind_emit.
  unfold after, dispatched. cbn [fst flat_map].
  fold (dispatched (fst (m env (hist ++ [invoke h])))).
  rewrite (dispatched_quiet _ (Hm env (hist ++ [invoke h]))).
  apply app_nil_r.
Qed.

Lemma In_dispatched (h : handler) (tr : list event) :
  In (invoke h) tr -> dispatch_of (invoke h) = [h] -> In h (dispatched tr).
Proof.
  intros Hin Hd. unfold dispatched. apply in_flat_map.
  exists (invoke h). split; [exact Hin | rewrite Hd; now left].
Qed.

(* ================================================================== *)
(** * The callback handlers *)
(* ================================================================== *)

Lemma show_categories_dispatched update context env hist :
  dispatched (fst (show_categories update context env hist))
  = [self_show_categories].
Proof.
  unfold show_categories. rewrite dispatched_entered; [reflexivity|].
  emits_auto.
Qed.

Lemma random_business_idea_dispatched update context env hist :
  dispatched (fst (random_business_idea update context env hist))
  = [self_random_business_idea].
Proof.
  unfold random_business_idea. rewrite dispatched_entered; [reflexivity|].
  emits_auto.
Qed.

Lemma show_help_dispatched update context env hist :
  dispatched (fst (show_help update context env hist)) = [self_show_help].
Proof.
  unfold show_help. rewrite dispatched_entered; [reflexivity|].
  emits_auto.
Qed.

Lemma back_to_start_dispatched update context env hist :
  dispatched (fst (back_to_start update context env hist))
  = [self_back_to_start].
Proof.
  unfold back_to_start. rewrite dispatched_entered; [reflexivity|].
  emits_auto.
Qed.

Lemma handle_category_selection_dispatched update context env hist :
  dispatched (fst (handle_category_selection update context env hist))
  = [self_handle_category_selection].
Proof.
  unfold handle_category_selection.
  rewrite dispatched_entered; [reflexivity|].
  emits_auto.
Qed.

(* ================================================================== *)
(** * The callback router *)
(* ================================================================== *)

(** The three ways through the router, for a button press with data [d]. *)
Lemma router_exact_match d method qm um context env hist :
  dict_lookup route_map d = Some method ->
  callback_query_handler (button_press d qm um) context env hist
  = after (invoke self_callback_query_handler)
          (method (button_press d qm um) context env
                  (hist ++ [invoke self_callback_query_handler])).
Proof.
  intros Hd. unfold callback_query_handler, entered.
  rewrite run_bind_emit. f_equal.
  unfold the_query, button_press at 1 2. cbn [u_callback_query q_data].
  rewrite run_bind_ret. cbn [q_data].
  unfold dict_contains, dict_index. rewrite Hd.
  now rewrite run_bind_ret.
Qed.

Lemma router_prefix_match d qm um context env hist :
  dict_lookup route_map d = None ->
  startswith d "category_" = true ->
  callback_query_handler (button_press d qm um) context env hist
  = after (invoke self_callback_query_handler)
          (handle_category_selection (button_press d qm um) context env
             (hist ++ [invoke self_callback_query_handler])).
Proof.
  intros Hd Hp. unfold callback_query_handler, entered.
  rewrite run_bind_emit. f_equal.
  unfold the_query, button_press at 1 2. cbn [u_callback_query q_data].
  rewrite run_bind_ret. cbn [q_data].
  unfold dict_contains. now rewrite Hd, Hp.
Qed.

Lemma router_no_match d qm um context env hist :
  dict_lookup route_map d = None ->
  startswith d "category_" = false ->
  callback_query_handler (button_press d qm um) context env hist
  = ([invoke self_callback_query_handler], Return tt).
Proof.
  intros Hd Hp. unfold callback_query_handler, entered.
  rewrite run_bind_emit.
  unfold the_query, button_press. cbn [u_callback_query q_data].
  rewrite run_bind_ret. cbn [q_data].
  unfold dict_contains. now rewrite Hd, Hp.
Qed.

(** No identifier with the category prefix is in the dispatch table. *)
Lemma category_prefix_not_in_route_map (key : string) :
  dict_lookup route_map ("category_" ++ key) = None.
Proof. reflexivity. Qed.

Lemma category_prefix_startswith (key : string) :
  startswith ("category_" ++ key) "category_" = true.
Proof. unfold startswith. apply prefix_refl_app. Qed.

(** The router sends every identifier with the category prefix to the
    category selection, and to nothing else. *)
Lemma router_category_prefix key qm um context env hist :
  dispatched (fst (callback_query_handler
                     (button_press ("category_" ++ key) qm um)
                     context env hist))
  = [self_handle_category_selection].
Proof.
  rewrite router_prefix_match
    by (apply category_prefix_not_in_route_map
        || apply category_prefix_startswith).
  unfold after, dispatched. cbn [fst flat_map dispatch_of app].
  apply handle_category_selection_dispatched.
Qed.

Lemma router_exact_dispatched d method h qm um context env hist :
  dict_lookup route_map d = Some method ->
  (forall update env' hist',
      dispatched (fst (method update context env' hist')) = [h]) ->
  dispatched (fst (callback_query_handler (button_press d qm um)
                                          context env hist)) = [h].
Proof.
  intros Hd Hm. rewrite (router_exact_match d method) by exact Hd.
  unfold after, dispatched. cbn [fst flat_map dispatch_of app].
  apply Hm.
Qed.

(** C5: for every key of the category table, the callback identifier
    [category_<key>] makes the router enter the category-selection handler
    exactly once and never the random-idea handler; each of the identifiers
    [show_categories], [random_idea], [help] and [back_to_start] is
    dispatched, by exact match, to its one handler. *)
Theorem router_dispatches_to_one_handler :
  forall (qm um : option Message) (context : CallbackContext)
         (env : environment) (hist : list event),
    let trace d :=
      fst (callback_query_handler (button_press d qm um) context env hist) in
    (forall key,
        In key (dict_keys BUSINESS_CATEGORIES) ->
        dispatched (trace ("category_" ++ key)%string)
        = [self_handle_category_selection]
        /\ ~ In (invoke self_random_business_idea)
                (trace ("category_" ++ key)%string))
    /\ dispatched (trace "show_categories") = [self_show_categories]
    /\ dispatched (trace "random_idea") = [self_random_business_idea]
    /\ dispatched (trace "help") = [self_show_help]
    /\ dispatched (trace "back_to_start") = [self_back_to_start].
Proof.
  intros qm um context env hist trace. subst trace. cbv beta.
  split; [|repeat split].
  - intros key _.
    pose proof (router_category_prefix key qm um context env hist) as Hd.
    split; [exact Hd|].
    intros Hin. apply In_dispatched in Hin; [|reflexivity].
    rewrite Hd in Hin. destruct Hin as [Hin | []]. discriminate.
  - apply (router_exact_dispatched _ show_categories); [reflexivity|].
    intros. apply show_categories_dispatched.
  - apply (router_exact_dispatched _ random_business_idea); [reflexivity|].
    intros. apply random_business_idea_dispatched.
  - apply (router_exact_dispatched _ show_help); [reflexivity|].
    intros. apply show_help_dispatched.
  - apply (router_exact_dispatched _ back_to_start); [reflexivity|].
    intros. apply back_to_start_dispatched.
Qed.

Lemma router_dispatches_to_one_handler_witness :
  In "tech" (dict_keys BUSINESS_CATEGORIES)
  /\ dispatched
       (fst (callback_query_handler (button_press "category_tech" None None)
                                    (mkContext None) friendly_environment []))
     = [self_handle_category_selection].
Proof.
  split; [simpl; auto|].
  destruct (router_dispatches_to_one_handler
              None None (mkContext None) friendly_environment [])
    as [Hcat _].
  apply (Hcat "tech"). simpl. auto.
Defined.

(** C6: a callback identifier that is none of the four exact identifiers and
    does not start with [category_] makes the router enter no handler and
    send nothing to the transport, and the router returns normally. *)
Theorem router_ignores_unknown_identifier :
  forall (d : string) (qm um : option Message) (context : CallbackContext)
         (env : environment) (hist : list event),
    d <> "show_categories" -> d <> "random_idea" -> d <> "help" ->
    d <> "back_to_start" ->
    startswith d "category_" = false ->
    callback_query_handler (button_press d qm um) context env hist
    = ([invoke self_callback_query_handler], Return tt).
Proof.
  intros d qm um context env hist H1 H2 H3 H4 Hp.
  apply router_no_match; [|exact Hp].
  unfold route_map. cbn [dict_lookup].
  apply String.eqb_neq in H1, H2, H3, H4.
  now rewrite H1, H2, H3, H4.
Qed.

Lemma router_ignores_unknown_identifier_witness :
  callback_query_handler (button_press "helpme" None None) (mkContext None)
                         friendly_environment []
  = ([invoke self_callback_query_handler], Return tt).
Proof.
  apply router_ignores_unknown_identifier;
    solve [discriminate | reflexivity].
Defined.

(* ================================================================== *)
(** * Startup *)
(* ================================================================== *)

(** C8: when the chat-platform token or the completion-service key is
    absent, [run] logs the condition at the critical level, naming the
    first of the two variables it finds unset, and returns: that one log
    entry is all it does, so no updater is created, no handler registered
    and no transport started. *)
Theorem run_refuses_without_secrets :
  forall (env : environment) (hist : list event),
    TELEGRAM_BOT_TOKEN env = None \/ GEMINI_API_KEY env = None ->
    run env hist
    = ([ log CRITICAL
             (if is_set (TELEGRAM_BOT_TOKEN env)
              then "❌ GEMINI_API_KEY environment variable not set! The bot cannot start."
              else "❌ TELEGRAM_BOT_TOKEN environment variable not set! The bot cannot start.") ],
       Return tt).
Proof.
  intros env hist H. unfold run. rewrite run_bind_ask.
  destruct (TELEGRAM_BOT_TOKEN env) as [[|c token]|]; cbn [is_set];
    try reflexivity.
  destruct H as [H | H]; [discriminate|]. rewrite H. reflexivity.
Qed.

Lemma run_refuses_without_secrets_witness :
  run (mkEnvironment (fun _ _ => Return 1%Z) None 0
                     (fun _ => EmptyString) (Some "token") None None
                     (Return 8443%Z)) []
  = ([ log CRITICAL
           "❌ GEMINI_API_KEY environment variable not set! The bot cannot start." ],
     Return tt).
Proof.
  apply (run_refuses_without_secrets
           (mkEnvironment (fun _ _ => Return 1%Z) None 0
                          (fun _ => EmptyString) (Some "token") None None
                          (Return 8443%Z)) []).
  right. reflexivity.
Defined.

(* ================================================================== *)
(** * The categories menu *)
(* ================================================================== *)

(** C9: the callback identifier [show_categories] makes the router edit the
    message into the categories menu, whose keyboard has a button for each
    of the twelve display labels of the category table and a
    [Back to Menu] button. *)
Theorem show_categories_menu :
  forall (qm um : option Message) (context : CallbackContext)
         (env : environment) (hist : list event),
    fst (callback_query_handler (button_press "show_categories" qm um)
                                context env hist)
    = [ invoke self_callback_query_handler;
        invoke self_show_categories;
        edit_message_text
          "🏢 *Choose a Business Category:*

Select a category to get tailored business ideas:"
          (Some MARKDOWN_V2) (Some categories_keyboard) ]
    /\ List.length (dict_values BUSINESS_CATEGORIES) = 12
    /\ (forall label,
           In label (dict_values BUSINESS_CATEGORIES) ->
           In label (map text (concat categories_keyboard)))
    /\ In (mkButton "🔙 Back to Menu" "back_to_start")
          (concat categories_keyboard)
    /\ str_in "Back to Menu" "🔙 Back to Menu" = true.
Proof.
  intros qm um context env hist. repeat split.
  - rewrite (router_exact_match _ show_categories) by reflexivity.
    unfold after. cbn [fst]. f_equal.
    unfold show_categories, entered. rewrite run_bind_emit.
    unfold after. cbn [fst]. f_equal.
    unfold button_press. cbn [u_callback_query].
    rewrite fst_request_ret. reflexivity.
  - intros label Hin. vm_compute in Hin |- *.
    repeat (destruct Hin as [<- | Hin]; [tauto|]). contradiction.
  - vm_compute. tauto.
Qed.

Lemma show_categories_menu_witness :
  In "✈️ Travel & Tourism" (map text (concat categories_keyboard)).
Proof.
  destruct (show_categories_menu None None (mkContext None)
                                 friendly_environment [])
    as (_ & _ & Hlabels & _).
  apply Hlabels. vm_compute. tauto.
Defined.

(* ================================================================== *)
(** * Delivery with fallback *)
(* ================================================================== *)

Lemma deliveries_app (a b : list event) :
  deliveries (a ++ b) = deliveries a ++ deliveries b.
Proof. apply filter_app. Qed.

Lemma calm_trace (tr : list event) :
  Forall calm tr ->
  deliveries tr = [] /\ entries self_error_handler tr = 0.
Proof.
  unfold entries, deliveries.
  induction 1 as [|ev tr Hev _ [IHd IHe]]; [now split|].
  apply orb_false_iff in Hev. destruct Hev as [Hd He].
  cbn [filter]. now rewrite Hd, He.
Qed.

(** The error handler is entered once and delivers nothing. *)
Lemma error_handler_trace update context env hist :
  deliveries (fst (error_handler update context env hist)) = []
  /\ entries self_error_handler
       (fst (error_handler update context env hist)) = 1.
Proof.
  unfold error_handler, entered. rewrite run_bind_emit.
  unfold after. cbn [fst].
  match goal with
  | |- context [fst (?m env ?h)] =>
      assert (Hc : emits calm m) by emits_auto;
      destruct (calm_trace _ (Hc env h)) as [Hd He]
  end.
  split.
  - unfold deliveries in *. cbn [filter is_delivery]. exact Hd.
  - unfold entries in *. cbn [filter enters handler_eqb List.length].
    now rewrite He.
Qed.

(** The request of a delivery depends on the message and the parse mode
    only through its arguments: if one delivery makes a request, so does
    every other with the same target. *)
Lemma delivery_some uq is_query chat_id msg pm markup first msg' pm' :
  delivery uq is_query chat_id msg pm markup = Some first ->
  exists retry,
    delivery uq is_query chat_id msg' pm' markup = Some retry
    /\ is_delivery retry = true /\ is_delivery first = true
    /\ enters self_error_handler retry = false
    /\ enters self_error_handler first = false.
Proof.
  unfold delivery. destruct is_query; [destruct uq|]; try discriminate;
    intros [= <-]; eexists; repeat split.
Qed.

Lemma run_try_except_return {A : Type} (m : M A) cls k env h evs a :
  m env h = (evs, Return a) -> try_except m cls k env h = (evs, Return a).
Proof. intros H. unfold try_except. now rewrite H. Qed.

Lemma run_try_except_uncaught {A : Type} (m : M A) cls k env h evs e :
  m env h = (evs, Raise e) -> catches cls e = false ->
  try_except m cls k env h = (evs, Raise e).
Proof. intros H Hc. unfold try_except. now rewrite H, Hc. Qed.

Lemma run_try_except_caught {A : Type} (m : M A) cls k env h evs e :
  m env h = (evs, Raise e) -> catches cls e = true ->
  try_except m cls k env h
  = (evs ++ fst (k e env (h ++ evs)), snd (k e env (h ++ evs))).
Proof.
  intros H Hc. unfold try_except. rewrite H, Hc.
  now destruct (k e env (h ++ evs)).
Qed.

Lemma catches_BadRequest (e : exception) :
  catches BadRequest e = true <-> exc_class e = BadRequest.
Proof. unfold catches. destruct (exc_class e); split; congruence. Qed.

(** The first attempt of [send_idea_with_fallback]. *)
Lemma first_attempt_rejected uq is_query chat_id idea markup env hist
      first e :
  delivery uq is_query chat_id idea (Some MARKDOWN_V2) markup = Some first ->
  transport env hist first = Raise e ->
  bind (deliver uq is_query chat_id idea (Some MARKDOWN_V2) markup)
       (fun _ => ret tt) env hist
  = ([first], Raise e).
Proof.
  intros Hd Ht. unfold deliver. rewrite Hd, run_bind_request. now rewrite Ht.
Qed.

(** A failure that is not a [BadRequest] leaves [send_idea_with_fallback]
    as it came: nothing more is sent, the error handler is not entered. *)
Lemma send_idea_other_class_propagates uq context is_query chat_id idea
      markup env hist first e :
  delivery uq is_query chat_id idea (Some MARKDOWN_V2) markup = Some first ->
  transport env hist first = Raise e ->
  exc_class e <> BadRequest ->
  send_idea_with_fallback uq context is_query chat_id idea markup env hist
  = ([first], Raise e).
Proof.
  intros Hd Ht Hc. unfold send_idea_with_fallback.
  apply run_try_except_uncaught.
  - now apply first_attempt_rejected.
  - destruct (catches BadRequest e) eqn:E; [|reflexivity].
    apply catches_BadRequest in E. contradiction.
Qed.

(** Unparseable entities: the escaped text is sent once more, without a
    parse mode. *)
Lemma send_idea_retry_trace uq context is_query chat_id idea markup env hist
      first e retry :
  delivery uq is_query chat_id idea (Some MARKDOWN_V2) markup = Some first ->
  transport env hist first = Raise e ->
  exc_class e = BadRequest ->
  str_in "Can't parse entities" (exc_str e) = true ->
  delivery uq is_query chat_id (escape_markdown_v2 idea) None markup
  = Some retry ->
  fst (send_idea_with_fallback uq context is_query chat_id idea markup
                               env hist)
  = [ first;
      log WARNING
          ("Could not parse AI-generated markdown. Sending as plain text. Error: "
           ++ exc_str e);
      retry ].
Proof.
  intros Hd Ht Hc Hp Hr. unfold send_idea_with_fallback.
  rewrite (run_try_except_caught _ _ _ env hist [first] e
             (first_attempt_rejected _ _ _ _ _ _ _ _ _ Hd Ht)
             (proj2 (catches_BadRequest e) Hc)).
  cbn [fst]. rewrite Hp, run_bind_emit. unfold after. cbn [fst app].
  do 2 f_equal. unfold deliver. rewrite Hr. apply fst_request_ret.
Qed.

(** Another [BadRequest]: the error handler takes over. *)
Lemma send_idea_error_trace uq context is_query chat_id idea markup env hist
      first e :
  delivery uq is_query chat_id idea (Some MARKDOWN_V2) markup = Some first ->
  transport env hist first = Raise e ->
  exc_class e = BadRequest ->
  str_in "Can't parse entities" (exc_str e) = false ->
  exists h',
    fst (send_idea_with_fallback uq context is_query chat_id idea markup
                                 env hist)
    = first
        :: log ERROR ("Telegram API error when sending idea: " ++ exc_str e)
        :: fst (error_handler (Some uq) context env h').
Proof.
  intros Hd Ht Hc Hp. unfold send_idea_with_fallback.
  rewrite (run_try_except_caught _ _ _ env hist [first] e
             (first_attempt_rejected _ _ _ _ _ _ _ _ _ Hd Ht)
             (proj2 (catches_BadRequest e) Hc)).
  cbn [fst]. rewrite Hp, run_bind_emit. unfold after. cbn [fst app].
  eexists. reflexivity.
Qed.

(** Whatever happens, [send_idea_with_fallback] delivers at most twice. *)
Lemma send_idea_at_most_two_deliveries uq context is_query chat_id idea
      markup env hist :
  List.length
    (deliveries (fst (send_idea_with_fallback uq context is_query chat_id
                                              idea markup env hist))) <= 2.
Proof.
  destruct (delivery uq is_query chat_id idea (Some MARKDOWN_V2) markup)
    as [first|] eqn:Hd.
  - destruct (delivery_some _ _ _ _ _ _ _ (escape_markdown_v2 idea) None Hd)
      as (retry & Hr & Hdr & Hdf & _).
    destruct (transport env hist first) as [id | e] eqn:Ht.
    + unfold send_idea_with_fallback.
      erewrite run_try_except_return with (evs := [first]) (a := tt).
      * unfold deliveries. cbn [fst filter]. rewrite Hdf. simpl. lia.
      * unfold deliver. rewrite Hd, run_bind_request, Ht. reflexivity.
    + destruct (catches BadRequest e) eqn:Hc.
      * apply catches_BadRequest in Hc.
        destruct (str_in "Can't parse entities" (exc_str e)) eqn:Hp.
        -- rewrite (send_idea_retry_trace _ _ _ _ _ _ _ _ _ _ _ Hd Ht Hc Hp Hr).
           unfold deliveries. cbn [filter is_delivery].
           rewrite Hdf, Hdr. simpl. lia.
        -- destruct (send_idea_error_trace _ context _ _ _ _ _ _ _ _
                       Hd Ht Hc Hp) as (h' & ->).
           unfold deliveries. cbn [filter is_delivery]. rewrite Hdf.
           fold (deliveries (fst (error_handler (Some uq) context env h'))).
           rewrite (proj1 (error_handler_trace _ _ _ _)). simpl. lia.
      * rewrite (send_idea_other_class_propagates _ _ _ _ _ _ _ _ _ _ Hd Ht).
        -- unfold deliveries. cbn [fst filter]. rewrite Hdf. simpl. lia.
        -- intros Hcls. apply catches_BadRequest in Hcls. congruence.
  - unfold send_idea_with_fallback.
    erewrite run_try_except_uncaught with (evs := []).
    + simpl. lia.
    + unfold deliver. rewrite Hd. reflexivity.
    + reflexivity.
Qed.

(** With an update, or with none, the error handler returns normally. *)
Lemma error_handler_returns (update : option Update) context env hist :
  snd (error_handler (option_map inl update) context env hist) = Return tt.
Proof.
  unfold error_handler, entered.
  rewrite run_bind_emit, run_bind_ask, run_bind_emit.
  unfold after. cbn [snd].
  destruct update as [u|]; cbn [option_map]; [|reflexivity].
  destruct (effective_message u); [|reflexivity].
  unfold try_except. rewrite run_bind_request.
  now destruct (transport env _ _).
Qed.



Lemma process_update_returned callback update env hist evs :
  callback update (mkContext None) env hist = (evs, Return tt) ->
  process_update callback update env hist = (evs, Return tt).
Proof. intros H. unfold process_update, try_except. now rewrite H. Qed.



(** A time-out of the transport is not a [BadRequest]: it leaves the
    routine, and the dispatcher hands it to the error handler, which
    tells the user. *)
Lemma timed_out_reaches_error_handler :
  send_idea_with_fallback (inr a_query) (mkContext None) true 10
                          "*A bold idea*" [] timing_out_environment []
  = ([edit_message_text "*A bold idea*" (Some MARKDOWN_V2) (Some [])],
     Raise timed_out)
  /\ fst (process_update
            (fun _ context =>
               send_idea_with_fallback (inr a_query) context true 10
                                       "*A bold idea*" [])
            (mkUpdate (Some a_query) None) timing_out_environment [])
     = [ edit_message_text "*A bold idea*" (Some MARKDOWN_V2) (Some []);
         invoke self_error_handler;
         log ERROR "Update <update> caused error Timed out";
         reply_text
           "❌ *An error occurred*

Sorry, something went wrong\. Please try again or use /start to return to the main menu\."
           (Some MARKDOWN_V2) None;
         log ERROR "Failed to send error message to user: Timed out" ].
Proof. split; reflexivity. Qed.

(** The same through the registered callback: a press of a category
    button whose idea cannot be delivered for a time-out.  The exception
    leaves the routine, the helper, the category selection and the router,
    and the dispatcher hands it to the error handler. *)
Lemma category_press_timed_out :
  skipn 5
    (fst (process_update callback_query_handler
            (button_press "category_tech" (Some (mkMessage 10 20)) None)
            idea_timing_out_environment []))
  = [ edit_message_text
        "*A bold idea*" (Some MARKDOWN_V2)
        (Some (idea_keyboard false "tech"));
      invoke self_error_handler;
      log ERROR "Update <update> caused error Timed out";
      reply_text
        "❌ *An error occurred*

Sorry, something went wrong\. Please try again or use /start to return to the main menu\."
        (Some MARKDOWN_V2) None ].
Proof. vm_compute. reflexivity. Qed.

(* ================================================================== *)
(** * Searching and replacing *)
(* ================================================================== *)

Lemma prefix_cons (a c : ascii) (p s : string) :
  prefix (String a p) (String c s) = Ascii.eqb c a && prefix p s.
Proof.
  cbn [prefix]. destruct (ascii_dec a c) as [-> | Hn].
  - now rewrite Ascii.eqb_refl.
  - destruct (Ascii.eqb_spec c a) as [-> | _]; [contradiction|reflexivity].
Qed.

Lemma prefix_nil (s : string) : prefix EmptyString s = true.
Proof. now destruct s. Qed.

(** Without an occurrence of [old], [replace] changes nothing. *)
Lemma replace_from_absent (old new s : string) :
  str_in old s = false -> replace_from 0 old new s = s.
Proof.
  induction s as [|c s IH]; [reflexivity|].
  cbn [str_in replace_from]. intros H.
  apply orb_false_iff in H. destruct H as [Hp Hs].
  rewrite Hp. now rewrite IH.
Qed.

Lemma str_replace_absent (s old new : string) :
  str_in old s = false -> str_replace s old new = s.
Proof.
  intros H. destruct old as [|a old].
  - destruct s; discriminate H.
  - now apply replace_from_absent.
Qed.

(** After a matched occurrence, the replacement goes on behind it. *)
Lemma replace_from_skip (old new p s : string) :
  replace_from (String.length p) old new (p ++ s)
  = replace_from 0 old new s.
Proof.
  induction p as [|c p IH]; [reflexivity|]. exact IH.
Qed.

Lemma str_replace_leading (old new s : string) :
  old <> EmptyString ->
  str_replace (old ++ s) old new = (new ++ str_replace s old new)%string.
Proof.
  destruct old as [|a old]; [contradiction|]. intros _.
  unfold str_replace.
  change (String a old ++ s)%string with (String a (old ++ s)%string).
  cbn [replace_from].
  change (String a (old ++ s)%string) with (String a old ++ s)%string.
  rewrite prefix_refl_app.
  replace (String.length (String a old) - 1) with (String.length old)
    by (cbn [String.length]; lia).
  now rewrite replace_from_skip.
Qed.

Lemma str_in_char (a : ascii) (s : string) :
  str_in (str1 a) s = has_char a s.
Proof.
  induction s as [|c s IH]; [reflexivity|].
  cbn [str_in has_char]. unfold str1 at 1.
  now rewrite prefix_cons, prefix_nil, andb_true_r, IH.
Qed.

Lemma bigram_after_spec (p : bool) (a b : ascii) (s : string) :
  bigram_after p a b s
  = (p && prefix (str1 b) s) || str_in (String a (str1 b)) s.
Proof.
  revert p. induction s as [|c s IH]; intros p.
  - cbn. now rewrite andb_false_r.
  - cbn [bigram_after str_in]. rewrite IH. unfold str1.
    rewrite !prefix_cons, prefix_nil, andb_true_r.
    now destruct p, (Ascii.eqb c b), (Ascii.eqb c a),
      (prefix (String b EmptyString) s), (str_in (String a (String b EmptyString)) s).
Qed.

Lemma str_in_bigram (a b : ascii) (s : string) :
  str_in (String a (str1 b)) s = bigram_after false a b s.
Proof. now rewrite bigram_after_spec. Qed.

Lemma bigram_after_app (p : bool) (a b : ascii) (s t : string) :
  bigram_after p a b (s ++ t)
  = bigram_after p a b s || bigram_after (last_is p a s) a b t.
Proof.
  revert p. induction s as [|c s IH]; intros p; [reflexivity|].
  cbn [append bigram_after last_is]. rewrite IH. now rewrite orb_assoc.
Qed.

Lemma last_is_app (p : bool) (a : ascii) (s t : string) :
  last_is p a (s ++ t) = last_is (last_is p a s) a t.
Proof.
  revert p. induction s as [|c s IH]; intros p; [reflexivity|]. apply IH.
Qed.

Lemma bigram_after_absent (p : bool) (a b : ascii) (s : string) :
  has_char b s = false -> bigram_after p a b s = false.
Proof.
  revert p. induction s as [|c s IH]; intros p; [reflexivity|].
  cbn [has_char bigram_after]. intros H.
  apply orb_false_iff in H. destruct H as [Hc Hs].
  now rewrite Hc, andb_false_r, IH.
Qed.

(* ================================================================== *)
(** * More about the escaper *)
(* ================================================================== *)

(** The escaper adds no star. *)
Lemma escape_has_no_star (s : string) :
  has_char "*" s = false -> has_char "*" (escape_markdown_v2 s) = false.
Proof.
  induction s as [|c s IH]; [reflexivity|].
  rewrite escape_markdown_v2_cons. cbn [has_char]. intros H.
  apply orb_false_iff in H. destruct H as [Hc Hs].
  unfold escape_char. destruct (is_reserved c);
    cbn [append str1 has_char]; rewrite Hc, (IH Hs); reflexivity.
Qed.

(** The escaper keeps the last character. *)
Lemma escape_last_is (p : bool) (s : string) :
  last_is p backslash (escape_markdown_v2 s) = last_is p backslash s.
Proof.
  revert p. induction s as [|c s IH]; intros p; [reflexivity|].
  rewrite escape_markdown_v2_cons. unfold escape_char.
  destruct (is_reserved c) eqn:Hc; cbn [append str1 last_is]; apply IH.
Qed.

(** In the escaper's output every reserved character is marked. *)
Lemma escape_marked_from (p : bool) (s : string) :
  marked_from p (escape_markdown_v2 s) = true.
Proof.
  revert p. induction s as [|c s IH]; intros p; [reflexivity|].
  rewrite escape_markdown_v2_cons. unfold escape_char.
  destruct (is_reserved c) eqn:Hc; cbn [append str1 marked_from].
  - rewrite backslash_not_reserved, Ascii.eqb_refl, orb_true_r. cbn.
    apply IH.
  - rewrite Hc. cbn. apply IH.
Qed.

(** Text without reserved characters is left as it is. *)
Lemma escape_unreserved (s : string) :
  has_reserved s = false -> escape_markdown_v2 s = s.
Proof.
  induction s as [|c s IH]; [reflexivity|].
  rewrite escape_markdown_v2_cons. cbn [has_reserved]. intros H.
  apply orb_false_iff in H. destruct H as [Hc Hs].
  unfold escape_char. rewrite Hc, (IH Hs). reflexivity.
Qed.

(* ================================================================== *)
(** * The completion gateway *)
(* ================================================================== *)

Lemma replace_from_head_mismatch (a c : ascii) (old new s : string) :
  Ascii.eqb c a = false ->
  replace_from 0 (String a old) new (String c s)
  = String c (replace_from 0 (String a old) new s).
Proof.
  intros H. cbn [replace_from]. now rewrite prefix_cons, H.
Qed.

Lemma replace_from_head_mismatch' (c : ascii) (old new s : string) :
  prefix old (String c s) = false ->
  replace_from 0 old new (String c s)
  = String c (replace_from 0 old new s).
Proof. intros H. cbn [replace_from]. now rewrite H. Qed.

(** Whatever the failure, the gateway swallows it and returns the error
    card. *)
Lemma generate_business_idea_failure category_name env hist e :
  completion_failure env category_name = Some e ->
  snd (generate_business_idea category_name env hist)
  = Return (str_replace (error_text category_name e) "\*" "*").
Proof.
  unfold completion_failure, generate_business_idea, try_except. intros Hf.
  rewrite run_bind_ask. destruct (model env) as [generate|].
  - rewrite run_bind_emit. unfold after, lift. cbn [fst snd].
    destruct (generate (prompt category_name)) as [? | e'];
      [discriminate|].
    injection Hf as ->. cbn [catches].
    rewrite run_bind_emit. reflexivity.
  - injection Hf as <-. unfold raise. cbn [catches].
    rewrite run_bind_emit. reflexivity.
Qed.

Lemma error_card_not_empty category_name e :
  str_replace (error_text category_name e) "\*" "*" <> EmptyString.
Proof.
  assert (exists rest, error_text category_name e = String "*" rest)
    as [rest ->] by (unfold error_text; eexists; reflexivity).
  unfold str_replace. rewrite replace_from_head_mismatch by reflexivity.
  discriminate.
Qed.

(** A card made of pieces none of which brings a backslash before a star
    has no escaped star. *)
Lemma no_escaped_star_in_card (head en body em tail : string) :
  bigram_after false "\" "*" head = false ->
  last_is false "\" head = false ->
  bigram_after false "\" "*" en = false ->
  last_is false "\" en = false ->
  bigram_after false "\" "*" body = false ->
  last_is false "\" body = false ->
  bigram_after false "\" "*" em = false ->
  (forall q, bigram_after q "\" "*" tail = false) ->
  str_in "\*" (head ++ en ++ body ++ em ++ tail) = false.
Proof.
  intros H1 L1 H2 L2 H3 L3 H4 H5.
  change "\*" with (String "\" (str1 "*")). rewrite str_in_bigram.
  rewrite !bigram_after_app.
  now rewrite H1, L1, H2, L2, H3, L3, H4, H5.
Qed.

(** When neither the category name nor the failure message brings a star,
    and the name does not end in a backslash, the last [replace] of the
    gateway changes nothing. *)
Lemma error_card_unchanged category_name e :
  str_in "*" category_name = false ->
  str_in "*" (exc_str e) = false ->
  ends_with category_name "\" = false ->
  str_replace (error_text category_name e) "\*" "*"
  = error_text category_name e.
Proof.
  intros Hn He Hl. apply str_replace_absent. unfold error_text.
  change "*" with (str1 "*") in Hn, He. rewrite str_in_char in Hn, He.
  apply no_escaped_star_in_card;
    try (vm_compute; reflexivity).
  - apply bigram_after_absent. now apply escape_has_no_star.
  - now rewrite escape_last_is.
  - apply bigram_after_absent. now apply escape_has_no_star.
  - intros q. cbn. now rewrite andb_false_r.
Qed.

(** C2, amended: whenever the call to the completion service fails, the
    service not being configured included, the gateway returns a string and
    raises nothing, and the string is not empty.  When neither the category
    name nor the failure message contains a star and the name does not end
    in a backslash, that string is the error template with the escaped
    category name and the escaped failure message in its two places: it
    contains the category name in escaped form (and as it was given when
    the name has no reserved character), and every reserved character of
    the two inserted texts stands after a backslash. *)
Theorem gateway_failure_card :
  forall (category_name : string) (env : environment) (hist : list event)
         (e : exception),
    completion_failure env category_name = Some e ->
    exists card : string,
      snd (generate_business_idea category_name env hist) = Return card
      /\ card <> EmptyString
      /\ (str_in "*" category_name = false ->
          str_in "*" (exc_str e) = false ->
          ends_with category_name "\" = false ->
          card = error_text category_name e
          /\ str_in (escape_markdown_v2 category_name) card = true
          /\ marked (escape_markdown_v2 category_name) = true
          /\ marked (escape_markdown_v2 (exc_str e)) = true
          /\ (has_reserved category_name = false ->
              str_in category_name card = true)).
Proof.
  intros category_name env hist e Hf.
  exists (str_replace (error_text category_name e) "\*" "*").
  split; [now apply generate_business_idea_failure|].
  split; [apply error_card_not_empty|].
  intros Hn He Hl. rewrite (error_card_unchanged _ _ Hn He Hl).
  split; [reflexivity|].
  split; [unfold error_text; apply str_in_middle|].
  split; [apply escape_marked_from|].
  split; [apply escape_marked_from|].
  intros Hr. unfold error_text. rewrite (escape_unreserved _ Hr).
  apply str_in_middle.
Qed.

Lemma gateway_failure_card_witness :
  exists card : string,
    snd (generate_business_idea "🏥 Health & Wellness"
                                unconfigured_environment [])
    = Return card
    /\ str_in "🏥 Health & Wellness" card = true.
Proof.
  destruct (gateway_failure_card
              "🏥 Health & Wellness" unconfigured_environment []
              (mkException Exception "Gemini AI model is not initialized.")
              eq_refl)
    as (card & Hrun & _ & Hcard).
  exists card. split; [exact Hrun|].
  destruct (Hcard eq_refl eq_refl eq_refl) as (_ & _ & _ & _ & Hin).
  apply Hin. reflexivity.
Defined.

(** The card for a category whose label has a reserved character: the
    label appears in escaped form only. *)
Lemma ecommerce_failure_card :
  snd (generate_business_idea "🛒 E-commerce & Online Business"
                              unconfigured_environment [])
  = Return
      "*❌ Error Generating Idea*

Sorry, I encountered an error while generating a business idea for *🛒 E\-commerce & Online Business*.

Please try again later or contact support if the issue persists.

*Error Details:* `Gemini AI model is not initialized\.`".
Proof. reflexivity. Qed.

(** C2, as stated, fails: the card does not always contain the category
    name. *)
Lemma not_failure_card_names_category : ~ failure_card_names_category.
Proof.
  intros H.
  destruct (H "🛒 E-commerce & Online Business" unconfigured_environment []
              (mkException Exception "Gemini AI model is not initialized.")
              eq_refl)
    as (card & Hrun & _ & Hin).
  rewrite ecommerce_failure_card in Hrun. injection Hrun as <-.
  vm_compute in Hin. discriminate Hin.
Qed.

(** The last [replace] of the gateway takes the escape marker off every
    star of the inserted texts. *)
Lemma star_in_category_name_is_unescaped :
  snd (generate_business_idea "a*b" unconfigured_environment [])
  = Return
      "*❌ Error Generating Idea*

Sorry, I encountered an error while generating a business idea for *a*b*.

Please try again later or contact support if the issue persists.

*Error Details:* `Gemini AI model is not initialized\.`".
Proof. reflexivity. Qed.

(* ================================================================== *)
(** * Category selection *)
(* ================================================================== *)

(** The key and the label [handle_category_selection] works with. *)
Lemma handle_category_selection_path d qm um context env hist :
  handle_category_selection (button_press d qm um) context env hist
  = (entered self_handle_category_selection ;;
     request answer ;;
     selection_path
       (mkCallbackQuery (Some d) qm) context
       (str_replace d "category_" EmptyString)
       (dict_get BUSINESS_CATEGORIES
                 (str_replace d "category_" EmptyString)
                 "Unknown Category")) env hist.
Proof.
  unfold handle_category_selection, selection_path, entered.
  rewrite !run_bind_emit. f_equal.
  unfold the_query, button_press. cbn [u_callback_query].
  rewrite run_bind_ret, !run_bind_request.
  destruct (transport env _ answer); [|reflexivity].
  f_equal. cbn [q_data]. now rewrite run_bind_ret, run_bind_request.
Qed.

(** A key of the table is what is left of its callback identifier. *)
Lemma category_key_of_identifier key label :
  dict_lookup BUSINESS_CATEGORIES key = Some label ->
  str_replace ("category_" ++ key) "category_" EmptyString = key.
Proof.
  intros H. apply dict_lookup_In in H. simpl in H.
  repeat (destruct H as [H | H]; [injection H as <- <-; reflexivity|]).
  contradiction.
Qed.

(** An unknown key in which [category_] does not occur again resolves to
    the fallback label. *)
Lemma unknown_key_resolves_to_fallback k :
  dict_lookup BUSINESS_CATEGORIES k = None ->
  str_in "category_" k = false ->
  str_replace ("category_" ++ k) "category_" EmptyString = k
  /\ dict_get BUSINESS_CATEGORIES
              (str_replace ("category_" ++ k) "category_" EmptyString)
              "Unknown Category"
     = "Unknown Category".
Proof.
  intros Hk Hfree.
  assert (E : str_replace ("category_" ++ k) "category_" EmptyString = k).
  { rewrite str_replace_leading by discriminate.
    now rewrite str_replace_absent. }
  split; [exact E|]. rewrite E. unfold dict_get. now rewrite Hk.
Qed.

(** C10: the identifier [category_category_tech] carries the key
    [category_tech], which is not in the table; the handler removes every
    occurrence of [category_], looks [tech] up and works with the label of
    the technology category instead of the fallback label. *)
Theorem nested_prefix_resolves_to_known_category :
  dict_lookup BUSINESS_CATEGORIES "category_tech" = None
  /\ dict_get BUSINESS_CATEGORIES
              (str_replace "category_category_tech" "category_" EmptyString)
              "Unknown Category"
     = "🚀 Technology & Software"
  /\ firstn 3
       (fst (handle_category_selection
               (button_press "category_category_tech" (Some (mkMessage 10 20))
                             None)
               (mkContext None) friendly_environment []))
     = [ invoke self_handle_category_selection;
         answer;
         edit_message_text
           "🔄 *Generating business idea for 🚀 Technology & Software\.\.\.*

Please wait while I create an innovative business concept for you\!"
           (Some MARKDOWN_V2) None ].
Proof.
  split; [reflexivity|]. split; [reflexivity|].
  vm_compute. reflexivity.
Qed.

(** The gateway never raises: it returns the completion or the error
    card. *)
Lemma generate_business_idea_returns category_name env hist :
  exists evs card,
    generate_business_idea category_name env hist = (evs, Return card).
Proof.
  unfold generate_business_idea, try_except. rewrite run_bind_ask.
  destruct (model env) as [generate|].
  - rewrite run_bind_emit. unfold after, lift. cbn [fst snd].
    destruct (generate (prompt category_name)) as [idea | e].
    + now eexists; eexists.
    + cbn [catches]. rewrite run_bind_emit. now eexists; eexists.
  - unfold raise. cbn [catches]. rewrite run_bind_emit.
    now eexists; eexists.
Qed.

Lemma snd_bind_return {A B : Type} (m : M A) (k : A -> M B) env h evs a :
  m env h = (evs, Return a) ->
  snd (bind m k env h) = snd (k a env (h ++ evs)).
Proof.
  intros H. unfold bind. rewrite H. now destruct (k a env (h ++ evs)).
Qed.

Ltac accept Hacc :=
  rewrite run_bind_request;
  match goal with
  | |- context [transport ?env ?h ?ev] =>
      let id := fresh "id" in
      destruct (Hacc h ev) as [id ->]
  end;
  unfold after; cbn [snd].

(** With a transport that accepts every request, the category selection
    returns normally for every callback identifier, be its key in the
    table or not. *)
Lemma category_selection_returns d m um context env hist :
  accepting env ->
  snd (handle_category_selection (button_press d (Some m) um) context
                                 env hist)
  = Return tt.
Proof.
  intros Hacc. rewrite handle_category_selection_path. unfold entered.
  rewrite run_bind_emit. unfold after. cbn [snd].
  accept Hacc. unfold selection_path. accept Hacc.
  unfold _generate_and_send_idea.
  match goal with
  | |- context [bind (generate_business_idea ?n) ?k ?env ?h] =>
      destruct (generate_business_idea_returns n env h)
        as (evs & card & Hg);
      rewrite (snd_bind_return _ k env h evs card Hg)
  end.
  cbn [message_of q_message]. rewrite !run_bind_ret.
  unfold send_idea_with_fallback, try_except, deliver, delivery.
  accept Hacc. reflexivity.
Qed.

(* ================================================================== *)
(** * The whole of [_generate_and_send_idea] *)
(* ================================================================== *)

Lemma deliveries_none (tr : list event) :
  Forall not_delivery tr -> deliveries tr = [].
Proof.
  unfold deliveries. induction 1 as [|ev tr Hev _ IH]; [reflexivity|].
  cbn [filter]. now rewrite Hev.
Qed.

Lemma delivers_at_most_bind {A B : Type} (n : nat) (m : M A)
      (k : A -> M B) :
  emits not_delivery m -> (forall a, delivers_at_most n (k a)) ->
  delivers_at_most n (bind m k).
Proof.
  intros Hm Hk env h. unfold bind.
  pose proof (deliveries_none _ (Hm env h)) as Hnone.
  destruct (m env h) as [evs [a | e]]; cbn [fst] in *.
  - specialize (Hk a env (h ++ evs)).
    destruct (k a env (h ++ evs)) as [evs' r]; cbn [fst] in *.
    now rewrite deliveries_app, Hnone.
  - rewrite Hnone. simpl. lia.
Qed.

Lemma generate_business_idea_delivers_nothing category_name :
  emits not_delivery (generate_business_idea category_name).
Proof. unfold generate_business_idea. emits_auto. Qed.

(** From the generation of the idea to its delivery, the idea is delivered
    at most twice: once formatted, and once more as plain text. *)
Lemma generate_and_send_idea_at_most_two_deliveries
      uq context key name is_random loading :
  delivers_at_most 2
    (_generate_and_send_idea uq context key name is_random loading).
Proof.
  unfold _generate_and_send_idea.
  apply delivers_at_most_bind;
    [apply generate_business_idea_delivers_nothing | intros idea].
  cbv zeta.
  apply delivers_at_most_bind; [emits_auto | intros chat_id].
  apply delivers_at_most_bind; [emits_auto | intros _].
  intros env h. apply send_idea_at_most_two_deliveries.
Qed.

(** When the plain-text retry fails too, its failure leaves
    [send_idea_with_fallback]: there is no third delivery. *)
Lemma failed_retry_propagates :
  send_idea_with_fallback (inr a_query) (mkContext None) true 10
    "A stray * star" []
    (mkEnvironment (fun _ _ => Raise cannot_parse) None 0
                   (fun _ => EmptyString) None None None (Return 0%Z)) []
  = ([ edit_message_text "A stray * star" (Some MARKDOWN_V2) (Some []);
       log WARNING
         "Could not parse AI-generated markdown. Sending as plain text. Error: Can't parse entities: can't find end of bold entity";
       edit_message_text "A stray \* star" None (Some []) ],
     Raise cannot_parse).
Proof. reflexivity. Qed.

(* ================================================================== *)
(** * The escaper: composition, injectivity, fixed points *)
(* ================================================================== *)

Lemma append_assoc (a b c : string) :
  ((a ++ b) ++ c = a ++ (b ++ c))%string.
Proof.
  induction a as [|x a IH]; cbn [append]; [reflexivity | now rewrite IH].
Qed.

Lemma str_flat_map_app (f : ascii -> string) (a b : string) :
  str_flat_map f (a ++ b) = (str_flat_map f a ++ str_flat_map f b)%string.
Proof.
  induction a as [|c a IH]; cbn [append str_flat_map]; [reflexivity|].
  now rewrite IH, append_assoc.
Qed.

(** X1: escaping a concatenation is concatenating the escaped parts: a
    message may be escaped piece by piece. *)
Theorem escape_markdown_v2_app :
  forall a b : string,
    escape_markdown_v2 (a ++ b)
    = (escape_markdown_v2 a ++ escape_markdown_v2 b)%string.
Proof.
  intros a b. rewrite !escape_markdown_v2_chars. apply str_flat_map_app.
Qed.

(** The first character of an escaped text is never reserved. *)
Lemma escape_head_not_reserved (c : ascii) (s rest : string) :
  escape_markdown_v2 s = String c rest -> is_reserved c = false.
Proof.
  destruct s as [|d s]; [discriminate|].
  rewrite escape_markdown_v2_cons. unfold escape_char.
  destruct (is_reserved d) eqn:Hd; cbn [append str1]; intros [= <- _].
  - apply backslash_not_reserved.
  - exact Hd.
Qed.

(** X2: the escaper is injective: two texts with the same escaped form are
    the same text. *)
Theorem escape_markdown_v2_injective :
  forall a b : string,
    escape_markdown_v2 a = escape_markdown_v2 b -> a = b.
Proof.
  induction a as [|c a IH]; intros [|d b] H.
  - reflexivity.
  - rewrite escape_markdown_v2_cons in H. unfold escape_char in H.
    destruct (is_reserved d); discriminate H.
  - rewrite escape_markdown_v2_cons in H. unfold escape_char in H.
    destruct (is_reserved c); discriminate H.
  - rewrite !escape_markdown_v2_cons in H. unfold escape_char in H.
    destruct (is_reserved c) eqn:Hc, (is_reserved d) eqn:Hd;
      cbn [append str1] in H.
    + injection H as <- H. now rewrite (IH b H).
    + injection H as _ H. symmetry in H.
      apply escape_head_not_reserved in H. congruence.
    + injection H as _ H.
      apply escape_head_not_reserved in H. congruence.
    + injection H as <- H. now rewrite (IH b H).
Qed.

Lemma escape_markdown_v2_injective_witness :
  "1. Tech & AI" = "1. Tech & AI".
Proof.
  apply escape_markdown_v2_injective. reflexivity.
Defined.

Lemma escape_length (s : string) :
  String.length (escape_markdown_v2 s) = String.length s + count_reserved s.
Proof.
  induction s as [|c s IH]; [reflexivity|].
  rewrite escape_markdown_v2_cons. unfold escape_char.
  cbn [count_reserved]. destruct (is_reserved c);
    cbn [append str1 String.length]; rewrite IH; lia.
Qed.

(** X3: in the escaper's output every reserved character stands right
    after a backslash, and the output is longer than the input by exactly
    the number of reserved characters of the input. *)
Theorem escape_markdown_v2_output_marked :
  forall text : string,
    marked (escape_markdown_v2 text) = true
    /\ String.length (escape_markdown_v2 text)
       = String.length text + count_reserved text.
Proof.
  intros text. split; [apply escape_marked_from | apply escape_length].
Qed.

Lemma count_reserved_zero (s : string) :
  count_reserved s = 0 <-> has_reserved s = false.
Proof.
  induction s as [|c s IH]; [now split|].
  cbn [count_reserved has_reserved]. destruct (is_reserved c); cbn.
  - split; discriminate.
  - exact IH.
Qed.

Lemma escape_has_reserved (s : string) :
  has_reserved (escape_markdown_v2 s) = has_reserved s.
Proof.
  induction s as [|c s IH]; [reflexivity|].
  rewrite escape_markdown_v2_cons. unfold escape_char.
  cbn [has_reserved]. destruct (is_reserved c) eqn:Hc;
    cbn [append str1 has_reserved].
  - now rewrite backslash_not_reserved, Hc.
  - now rewrite Hc, IH.
Qed.

Lemma escape_fixed_point (s : string) :
  escape_markdown_v2 s = s <-> has_reserved s = false.
Proof.
  split.
  - intros H. apply count_reserved_zero.
    pose proof (escape_length s) as L. rewrite H in L. lia.
  - apply escape_unreserved.
Qed.

(** X4: the escaper leaves a text unchanged exactly when the text has no
    reserved character, and it is not idempotent: escaping an escaped text
    changes it again as soon as the original text had a reserved
    character. *)
Theorem escape_markdown_v2_twice :
  forall text : string,
    (escape_markdown_v2 text = text <-> has_reserved text = false)
    /\ (escape_markdown_v2 (escape_markdown_v2 text)
        = escape_markdown_v2 text
        <-> has_reserved text = false).
Proof.
  intros text. split; [apply escape_fixed_point|].
  rewrite escape_fixed_point. now rewrite escape_has_reserved.
Qed.

(* ================================================================== *)
(** * The gateway and the error handler never raise *)
(* ================================================================== *)

(** X5: the gateway never raises, whatever the completion client does;
    when the client answers, the gateway returns its text unchanged, having
    done nothing but the one call with the prompt of the category. *)
Theorem gateway_never_raises :
  forall (category_name : string) (env : environment) (hist : list event),
    (exists evs text,
        generate_business_idea category_name env hist = (evs, Return text))
    /\ forall generate idea,
        model env = Some generate ->
        generate (prompt category_name) = Return idea ->
        generate_business_idea category_name env hist
        = ([generate_content (prompt category_name)], Return idea).
Proof.
  intros category_name env hist.
  split; [apply generate_business_idea_returns|].
  intros generate idea Hm Hg.
  unfold generate_business_idea, try_except.
  rewrite run_bind_ask, Hm, run_bind_emit. unfold after, lift.
  cbn [fst snd]. now rewrite Hg.
Qed.

Lemma gateway_never_raises_witness :
  generate_business_idea "🍔 Food & Beverage" friendly_environment []
  = ([generate_content (prompt "🍔 Food & Beverage")],
     Return "*A bold idea*").
Proof.
  destruct (gateway_never_raises "🍔 Food & Beverage"
                                 friendly_environment []) as [_ H].
  apply (H (fun _ => Return "*A bold idea*")); reflexivity.
Defined.

(** X6: called with an update, or with none, the error handler never
    raises, whatever the transport does.  It logs the error; when the
    update has a message to reply to, it makes one request, the reply that
    tells the user, and when the transport rejects that reply the failure
    is logged and swallowed; without such a message it makes no request. *)
Theorem error_handler_never_raises :
  forall (update : option Update) (context : CallbackContext)
         (env : environment) (hist : list event),
    let run := error_handler (option_map inl update) context env hist in
    let entry :=
      [ invoke self_error_handler;
        log ERROR ("Update " ++ repr env (option_map inl update)
                   ++ " caused error "
                   ++ match error context with
                      | Some e => exc_str e
                      | None => "None"
                      end) ] in
    let reply :=
      reply_text
        "❌ *An error occurred*

Sorry, something went wrong\. Please try again or use /start to return to the main menu\."
        (Some MARKDOWN_V2) None in
    snd run = Return tt
    /\ fst run
       = entry
         ++ match update with
            | None => []
            | Some u =>
                match effective_message u with
                | None => []
                | Some _ =>
                    reply
                      :: match transport env (hist ++ entry) reply with
                         | Return _ => []
                         | Raise e =>
                             [ log ERROR
                                   ("Failed to send error message to user: "
                                    ++ exc_str e) ]
                         end
                end
            end.
Proof.
  intros update context env hist. cbv zeta.
  split; [apply error_handler_returns|].
  unfold error_handler, entered.
  rewrite run_bind_emit, run_bind_ask, run_bind_emit.
  unfold after. cbn [fst app]. do 2 f_equal.
  destruct update as [u|]; cbn [option_map]; [|reflexivity].
  destruct (effective_message u); [|reflexivity].
  change (escape_markdown_v2 _) with
    "❌ \*An error occurred\*

Sorry, something went wrong\. Please try again or use /start to return to the main menu\.".
  change (str_replace _ "\*" "*") with
    "❌ *An error occurred*

Sorry, something went wrong\. Please try again or use /start to return to the main menu\.".
  unfold try_except. rewrite run_bind_request, <- app_assoc.
  cbn [app].
  now destruct (transport env _ _).
Qed.

(* ================================================================== *)
(** * The router and the category selection, for every update *)
(* ================================================================== *)

Lemma route_map_handlers d method :
  dict_lookup route_map d = Some method ->
  forall update context env hist,
    List.length (dispatched (fst (method update context env hist))) = 1.
Proof.
  intros H update context env hist. apply dict_lookup_In in H.
  cbn [route_map In] in H.
  destruct H as [H | [H | [H | [H | []]]]]; injection H as _ <-.
  - now rewrite show_categories_dispatched.
  - now rewrite random_business_idea_dispatched.
  - now rewrite show_help_dispatched.
  - now rewrite back_to_start_dispatched.
Qed.

(** X7: whatever the update, the router enters at most one of the handlers
    it dispatches to; without a callback query, or without callback data,
    it enters none and raises an [AttributeError]. *)
Theorem router_enters_at_most_one_handler :
  forall (update : Update) (context : CallbackContext)
         (env : environment) (hist : list event),
    let run := callback_query_handler update context env hist in
    List.length (dispatched (fst run)) <= 1
    /\ ((u_callback_query update = None
         \/ exists q, u_callback_query update = Some q /\ q_data q = None) ->
        fst run = [invoke self_callback_query_handler]
        /\ exists e, snd run = Raise e /\ exc_class e = AttributeError).
Proof.
  intros [[[[d|] qm]|] um] context env hist; cbv zeta.
  - split.
    + fold (button_press d qm um).
      destruct (dict_lookup route_map d) as [method|] eqn:Hd.
      * rewrite (router_exact_match d method) by exact Hd.
        unfold after, dispatched. cbn [fst flat_map dispatch_of app].
        fold (dispatched
                (fst (method (button_press d qm um) context env
                        (hist ++ [invoke self_callback_query_handler])))).
        now rewrite (route_map_handlers d method Hd).
      * destruct (startswith d "category_") eqn:Hp.
        -- rewrite router_prefix_match by assumption.
           unfold after, dispatched. cbn [fst flat_map dispatch_of app].
           fold (dispatched
                   (fst (handle_category_selection
                           (button_press d qm um) context env
                           (hist ++ [invoke self_callback_query_handler])))).
           now rewrite handle_category_selection_dispatched.
        -- rewrite router_no_match by assumption. cbn. lia.
    + intros [H | (q & H & Hq)]; [discriminate H|].
      injection H as <-. discriminate Hq.
  - assert (E : callback_query_handler
                  (mkUpdate (Some (mkCallbackQuery None qm)) um)
                  context env hist
                = ([invoke self_callback_query_handler],
                   Raise (mkException AttributeError
                            "object has no attribute 'startswith'")))
      by reflexivity.
    rewrite E. cbn [fst snd]. split; [cbn; lia|].
    intros _. split; [reflexivity|]. eexists. split; reflexivity.
  - assert (E : callback_query_handler (mkUpdate None um) context env hist
                = ([invoke self_callback_query_handler],
                   Raise (mkException AttributeError
                            "object has no attribute 'data'")))
      by reflexivity.
    rewrite E. cbn [fst snd]. split; [cbn; lia|].
    intros _. split; [reflexivity|]. eexists. split; reflexivity.
Qed.

Lemma router_enters_at_most_one_handler_witness :
  fst (callback_query_handler (mkUpdate None None) (mkContext None)
                              friendly_environment [])
  = [invoke self_callback_query_handler].
Proof.
  destruct (router_enters_at_most_one_handler
              (mkUpdate None None) (mkContext None) friendly_environment [])
    as [_ H].
  apply H. left. reflexivity.
Defined.

Lemma category_button_in_keyboard (item : string * string) :
  In item (dict_items BUSINESS_CATEGORIES) ->
  In (category_button item) (concat categories_keyboard).
Proof.
  intros H. vm_compute in H.
  repeat (destruct H as [<- | H]; [vm_compute; tauto|]). contradiction.
Qed.

(** X8: the menu and the selection fit together.  For every entry of the
    category table, the categories keyboard has a button with its label and
    the identifier [category_<key>], and a press of that button takes the
    router to the category selection, which answers the query and goes on
    with exactly that key and that label. *)
Theorem category_button_selects_its_category :
  forall key label : string,
    dict_lookup BUSINESS_CATEGORIES key = Some label ->
    In (mkButton label ("category_" ++ key)) (concat categories_keyboard)
    /\ forall qm um context env hist,
        callback_query_handler (button_press ("category_" ++ key) qm um)
                               context env hist
        = after (invoke self_callback_query_handler)
            ((entered self_handle_category_selection ;;
              request answer ;;
              selection_path (mkCallbackQuery (Some ("category_" ++ key)%string) qm)
                             context key label)
               env (hist ++ [invoke self_callback_query_handler])).
Proof.
  intros key label Hk. split.
  - apply (category_button_in_keyboard (key, label)).
    now apply dict_lookup_In.
  - intros qm um context env hist.
    rewrite router_prefix_match
      by (apply category_prefix_not_in_route_map
          || apply category_prefix_startswith).
    f_equal. rewrite handle_category_selection_path.
    rewrite (category_key_of_identifier key label Hk).
    unfold dict_get. now rewrite Hk.
Qed.

Lemma category_button_selects_its_category_witness :
  In (mkButton "🏥 Health & Wellness" "category_health")
     (concat categories_keyboard).
Proof.
  apply (category_button_selects_its_category
           "health" "🏥 Health & Wellness").
  reflexivity.
Defined.

(** X9: for a key that is not in the table and in which [category_] does
    not occur, the category selection works with the fallback label
    [Unknown Category], on the same path as for a key of the table; with a
    transport that accepts every request it returns normally. *)
Theorem unknown_key_uses_fallback_label :
  forall (k : string) (qm um : option Message) (context : CallbackContext)
         (env : environment) (hist : list event),
    dict_lookup BUSINESS_CATEGORIES k = None ->
    str_in "category_" k = false ->
    handle_category_selection (button_press ("category_" ++ k) qm um)
                              context env hist
    = (entered self_handle_category_selection ;;
       request answer ;;
       selection_path (mkCallbackQuery (Some ("category_" ++ k)%string) qm)
                      context k "Unknown Category") env hist
    /\ (accepting env -> qm <> None ->
        snd (handle_category_selection
               (button_press ("category_" ++ k) qm um) context env hist)
        = Return tt).
Proof.
  intros k qm um context env hist Hk Hfree.
  destruct (unknown_key_resolves_to_fallback k Hk Hfree) as [Ekey Elabel].
  split.
  - rewrite handle_category_selection_path. now rewrite Elabel, Ekey.
  - intros Hacc Hqm. destruct qm as [m|]; [|contradiction].
    now apply category_selection_returns.
Qed.

Lemma unknown_key_uses_fallback_label_witness :
  snd (handle_category_selection
         (button_press "category_pets" (Some (mkMessage 10 20)) None)
         (mkContext None) friendly_environment [])
  = Return tt.
Proof.
  destruct (unknown_key_uses_fallback_label
              "pets" (Some (mkMessage 10 20)) None (mkContext None)
              friendly_environment [] eq_refl eq_refl) as [_ H].
  apply H.
  - intros h ev. exists 1%Z. reflexivity.
  - discriminate.
Defined.

(* ================================================================== *)
(** * The random idea *)
(* ================================================================== *)

Lemma run_bind_random_choice {A B : Type} (l : list A) (x : A)
      (k : A -> M B) env h :
  nth_error l (random_index env mod List.length l) = Some x ->
  bind (random_choice l) k env h = k x env h.
Proof.
  intros H. unfold bind, random_choice. rewrite H, app_nil_r.
  now destruct (k x env h).
Qed.

Lemma dict_lookup_key {V : Type} (d : dict V) (key : string) :
  In key (dict_keys d) -> exists v, dict_lookup d key = Some v.
Proof.
  induction d as [|[k v] d IH]; cbn [dict_keys map In dict_lookup fst];
    [contradiction|].
  intros [<- | H].
  - rewrite String.eqb_refl. now exists v.
  - destruct (String.eqb key k); [now exists v | now apply IH].
Qed.

(** Whatever the random source gives, [random.choice] finds a key of the
    table, and the key has a label. *)
Lemma random_category (env : environment) :
  exists key label,
    nth_error (dict_keys BUSINESS_CATEGORIES)
              (random_index env
               mod List.length (dict_keys BUSINESS_CATEGORIES))
    = Some key
    /\ dict_lookup BUSINESS_CATEGORIES key = Some label.
Proof.
  destruct (nth_error (dict_keys BUSINESS_CATEGORIES)
                      (random_index env
                       mod List.length (dict_keys BUSINESS_CATEGORIES)))
    as [key|] eqn:E.
  - destruct (dict_lookup_key BUSINESS_CATEGORIES key) as [label Hl].
    + eapply nth_error_In. exact E.
    + now exists key, label.
  - apply nth_error_None in E.
    pose proof (Nat.mod_upper_bound
                  (random_index env)
                  (List.length (dict_keys BUSINESS_CATEGORIES))) as Hb.
    assert (List.length (dict_keys BUSINESS_CATEGORIES) <> 0)
      by (cbn; discriminate).
    specialize (Hb H). lia.
Qed.

(** X10: pressed as a button, the random idea never fails to choose: for
    every state of the random source it takes one entry of the category
    table, answers the query, shows the loading message for that entry's
    label and generates and sends the idea for the same key and label, with
    the keyboard of the random ideas. *)
Theorem random_button_uses_one_table_entry :
  forall (q : CallbackQuery) (um : option Message)
         (context : CallbackContext) (env : environment)
         (hist : list event),
  exists key label,
    dict_lookup BUSINESS_CATEGORIES key = Some label
    /\ random_business_idea (mkUpdate (Some q) um) context env hist
       = (entered self_random_business_idea ;;
          request answer ;;
          request (edit_message_text (random_loading_message_text label)
                                     (Some MARKDOWN_V2) None) ;;
          _generate_and_send_idea (inr q) context key label true None)
           env hist.
Proof.
  intros q um context env hist.
  destruct (random_category env) as (key & label & Hkey & Hlabel).
  exists key, label. split; [exact Hlabel|].
  unfold random_business_idea, entered. rewrite !run_bind_emit. f_equal.
  rewrite (run_bind_random_choice _ key) by exact Hkey.
  unfold dict_index. rewrite Hlabel, run_bind_ret. reflexivity.
Qed.

Lemma error_handler_delivers_nothing update context :
  emits not_delivery (error_handler update context).
Proof. unfold error_handler. emits_auto. Qed.

Lemma message_reply_text_delivers_nothing update msg parse_mode markup :
  emits not_delivery (message_reply_text update msg parse_mode markup).
Proof. unfold message_reply_text. emits_auto. Qed.

#[export] Hint Resolve generate_business_idea_delivers_nothing
  error_handler_delivers_nothing message_reply_text_delivers_nothing
  : emits.

(** An update has no [edit_message_text]: with an update as its target and
    [is_query] set, the delivery block sends nothing. *)
Lemma send_idea_to_update_delivers_nothing u context chat_id idea markup :
  emits not_delivery
        (send_idea_with_fallback (inl u) context true chat_id idea markup).
Proof.
  unfold send_idea_with_fallback, deliver, delivery. emits_auto.
Qed.

Lemma generate_and_send_to_update_delivers_nothing
      u m context key name is_random loading :
  u_message u = Some m ->
  emits not_delivery
        (_generate_and_send_idea (inl u) context key name is_random loading).
Proof.
  intros Hm. unfold _generate_and_send_idea. cbn [message_of].
  rewrite Hm. emits_auto. apply send_idea_to_update_delivers_nothing.
Qed.

(** X11: reached by the [/random] command, the random idea never delivers
    the idea.  The update of a command has a message, so the helper takes
    it for a callback query and calls [edit_message_text] on it, which an
    update does not have: whatever the transport does, no message is
    edited or sent with the idea; with a transport that accepts every
    request, the handler ends in an [AttributeError]. *)
Theorem random_command_never_delivers :
  forall (m : Message) (context : CallbackContext) (env : environment)
         (hist : list event),
    let run := random_business_idea (command m) context env hist in
    deliveries (fst run) = []
    /\ (accepting env ->
        exists e, snd run = Raise e /\ exc_class e = AttributeError).
Proof.
  intros m context env hist. cbv zeta. split.
  - apply deliveries_none.
    assert (H : emits not_delivery
                      (random_business_idea (command m) context)).
    { unfold random_business_idea, command. cbn [u_callback_query].
      emits_auto.
      now apply generate_and_send_to_update_delivers_nothing with (m := m). }
    apply H.
  - intros Hacc.
    destruct (random_category env) as (key & label & Hkey & Hlabel).
    unfold random_business_idea, entered. rewrite run_bind_emit.
    unfold after. cbn [snd].
    rewrite (run_bind_random_choice _ key) by exact Hkey.
    unfold dict_index. rewrite Hlabel, run_bind_ret.
    unfold command, message_reply_text. cbn [u_callback_query u_message].
    accept Hacc.
    unfold _generate_and_send_idea.
    match goal with
    | |- context [bind (generate_business_idea ?n) ?k ?env ?h] =>
        destruct (generate_business_idea_returns n env h)
          as (evs & card & Hg);
        rewrite (snd_bind_return _ k env h evs card Hg)
    end.
    cbn [message_of u_message]. rewrite run_bind_ret.
    match goal with
    | |- context [bind ?del ?k ?env ?h] =>
        assert (Hdel : exists evs', del env h = (evs', Return tt))
    end.
    { destruct (Z.eqb id 0); [now eexists|].
      unfold try_except. rewrite run_bind_request.
      match goal with
      | |- context [transport ?env ?h ?ev] =>
          destruct (Hacc h ev) as [id' ->]
      end.
      now eexists. }
    destruct Hdel as [evs' Hdel].
    rewrite (snd_bind_return _ _ _ _ evs' tt Hdel).
    eexists. split; reflexivity.
Qed.

Lemma random_command_never_delivers_witness :
  exists e,
    snd (random_business_idea (command (mkMessage 10 20)) (mkContext None)
                              friendly_environment [])
    = Raise e
    /\ exc_class e = AttributeError.
Proof.
  destruct (random_command_never_delivers
              (mkMessage 10 20) (mkContext None) friendly_environment [])
    as [_ H].
  apply H. intros h ev. exists 1%Z. reflexivity.
Defined.

(* ================================================================== *)
(** * No dead buttons *)
(* ================================================================== *)

Lemma routable_category (key : string) :
  routable ("category_" ++ key) = true.
Proof.
  unfold routable. rewrite category_prefix_startswith. apply orb_true_r.
Qed.

Lemma deliver_buttons_routable uq is_query chat_id msg parse_mode markup :
  keyboard_routable markup = true ->
  emits buttons_routable (deliver uq is_query chat_id msg parse_mode markup).
Proof.
  intros H. unfold deliver, delivery.
  destruct is_query; [destruct uq|]; cbv beta iota.
  - apply emits_attribute_error.
  - apply emits_request. exact H.
  - apply emits_request. exact H.
Qed.

Lemma error_handler_buttons_routable update context :
  emits buttons_routable (error_handler update context).
Proof. unfold error_handler. emits_auto. Qed.

Lemma generate_business_idea_buttons_routable category_name :
  emits buttons_routable (generate_business_idea category_name).
Proof. unfold generate_business_idea. emits_auto. Qed.

Lemma message_reply_text_buttons_routable update msg parse_mode markup :
  match markup with
  | Some keyboard => keyboard_routable keyboard
  | None => true
  end = true ->
  emits buttons_routable (message_reply_text update msg parse_mode markup).
Proof.
  intros H. unfold message_reply_text.
  destruct (u_message update); [|emits_auto].
  apply emits_request. exact H.
Qed.

#[export] Hint Resolve error_handler_buttons_routable
  generate_business_idea_buttons_routable : emits.

Lemma send_idea_buttons_routable uq context is_query chat_id idea markup :
  keyboard_routable markup = true ->
  emits buttons_routable
        (send_idea_with_fallback uq context is_query chat_id idea markup).
Proof.
  intros H. unfold send_idea_with_fallback.
  apply emits_try_except.
  - apply emits_bind;
      [now apply deliver_buttons_routable | intros; emits_auto].
  - intros e. destruct (str_in _ _).
    + apply emits_bind; [emits_auto | intros _].
      apply emits_bind;
      [now apply deliver_buttons_routable | intros; emits_auto].
    + emits_auto.
Qed.

Lemma generate_and_send_buttons_routable
      uq context key name is_random loading :
  emits buttons_routable
        (_generate_and_send_idea uq context key name is_random loading).
Proof.
  unfold _generate_and_send_idea.
  apply emits_bind; [auto with emits | intros idea]. cbv zeta.
  apply emits_bind; [emits_auto | intros chat_id].
  apply emits_bind; [emits_auto | intros _].
  apply send_idea_buttons_routable.
  destruct is_random; [reflexivity|].
  unfold keyboard_routable. cbn [concat app forallb callback_data].
  now rewrite routable_category.
Qed.

#[export] Hint Resolve generate_and_send_buttons_routable : emits.

Lemma start_buttons_routable update context :
  emits buttons_routable (start update context).
Proof.
  unfold start. emits_step; [emits_auto|]. cbv zeta.
  emits_step; [| emits_auto].
  now apply message_reply_text_buttons_routable.
Qed.

Lemma show_categories_buttons_routable update context :
  emits buttons_routable (show_categories update context).
Proof.
  unfold show_categories. emits_step; [emits_auto|]. cbv zeta.
  destruct (u_callback_query update).
  - emits_auto.
  - emits_step; [| emits_auto].
    now apply message_reply_text_buttons_routable.
Qed.

Lemma show_help_buttons_routable update context :
  emits buttons_routable (show_help update context).
Proof.
  unfold show_help. emits_step; [emits_auto|]. cbv zeta.
  destruct (u_callback_query update).
  - emits_auto.
  - emits_step; [| emits_auto].
    now apply message_reply_text_buttons_routable.
Qed.

Lemma back_to_start_buttons_routable update context :
  emits buttons_routable (back_to_start update context).
Proof.
  unfold back_to_start, the_query. emits_auto.
Qed.

Lemma random_business_idea_buttons_routable update context :
  emits buttons_routable (random_business_idea update context).
Proof.
  unfold random_business_idea.
  emits_step; [emits_auto|].
  emits_step; [emits_auto|].
  emits_step; [emits_auto|].
  destruct (u_callback_query update).
  - emits_auto.
  - emits_step; [| emits_auto].
    now apply message_reply_text_buttons_routable.
Qed.

Lemma handle_category_selection_buttons_routable update context :
  emits buttons_routable (handle_category_selection update context).
Proof.
  unfold handle_category_selection, the_query. emits_auto.
Qed.

Lemma callback_query_handler_buttons_routable update context :
  emits buttons_routable (callback_query_handler update context).
Proof.
  unfold callback_query_handler, the_query.
  emits_step; [emits_auto|].
  apply emits_bind; [emits_auto | intros query].
  destruct (q_data query) as [d|]; [|emits_auto].
  unfold dict_contains, dict_index.
  destruct (dict_lookup route_map d) as [method|] eqn:Hd.
  - apply emits_bind_ret.
    apply dict_lookup_In in Hd. cbn [route_map In] in Hd.
    destruct Hd as [H | [H | [H | [H | []]]]]; injection H as _ <-.
    + apply show_categories_buttons_routable.
    + apply random_business_idea_buttons_routable.
    + apply show_help_buttons_routable.
    + apply back_to_start_buttons_routable.
  - destruct (startswith d "category_"); [|emits_auto].
    apply handle_category_selection_buttons_routable.
Qed.

(** X12: the bot shows no dead button.  Whatever the update and the
    surroundings, every button of every keyboard sent by the handlers that
    [run] registers carries a callback identifier the router acts on: one
    of its four exact identifiers, or one with the category prefix. *)
Theorem every_button_is_routable :
  forall (update : Update) (context : CallbackContext),
    emits buttons_routable (start update context)
    /\ emits buttons_routable (show_categories update context)
    /\ emits buttons_routable (random_business_idea update context)
    /\ emits buttons_routable (show_help update context)
    /\ emits buttons_routable (callback_query_handler update context)
    /\ emits buttons_routable (error_handler (Some (inl update)) context).
Proof.
  intros update context. repeat split.
  - apply start_buttons_routable.
  - apply show_categories_buttons_routable.
  - apply random_business_idea_buttons_routable.
  - apply show_help_buttons_routable.
  - apply callback_query_handler_buttons_routable.
  - apply error_handler_buttons_routable.
Qed.

(* ================================================================== *)
(** * Startup, in full *)
(* ================================================================== *)

(** X13: [run] creates the updater exactly when both secrets are non-empty
    strings and the completion client was constructed: an empty string
    counts as a missing secret, and a missing client stops the start like a
    missing secret does. *)
Theorem run_serves_iff_configured :
  forall (env : environment) (hist : list event),
    (exists token, In (Updater token) (fst (run env hist)))
    <-> (is_set (TELEGRAM_BOT_TOKEN env) = true
         /\ is_set (GEMINI_API_KEY env) = true
         /\ model env <> None).
Proof.
  intros env hist. unfold run. rewrite run_bind_ask.
  destruct (TELEGRAM_BOT_TOKEN env) as [[|c token]|];
    destruct (GEMINI_API_KEY env) as [[|c' key]|];
    destruct (model env) as [generate|];
    cbn [is_set].
  all: try (split;
            [ intros (t & [H | []]); discriminate H
            | intros (H1 & H2 & H3); congruence ]).
  rewrite run_bind_request. split.
  - intros _. repeat split. discriminate.
  - intros _. exists (String c token).
    destruct (transport env hist (Updater (String c token)));
      left; reflexivity.
Qed.

Section Follows.

Variable env : environment.

Lemma follows_ret {A : Type} (a : A) : follows env [] (ret a).
Proof. intros h. split; [now exists [] | reflexivity]. Qed.

Lemma follows_emit (ev : event) : follows env [ev] (emit ev).
Proof. intros h. split; [now exists [] | reflexivity]. Qed.

Lemma follows_bind {A B : Type} (s1 s2 : list event) (m : M A)
      (k : A -> M B) :
  follows env s1 m -> (forall a, follows env s2 (k a)) ->
  follows env (s1 ++ s2) (bind m k).
Proof.
  intros Hm Hk h. unfold bind. destruct (Hm h) as [[rest Hp] Hr].
  destruct (m env h) as [evs [a | e]]; cbn [fst snd] in *.
  - rewrite (Hr a eq_refl) in *.
    destruct (Hk a (h ++ s1)) as [[rest' Hp'] Hr'].
    destruct (k a env (h ++ s1)) as [evs' r]; cbn [fst snd] in *.
    split.
    + exists rest'. rewrite Hp' at 1. apply app_assoc.
    + intros b Hb. now rewrite (Hr' b Hb).
  - split; [|discriminate].
    exists (rest ++ s2). rewrite Hp at 1. now rewrite app_assoc.
Qed.

Lemma follows_request (ev : event) : follows env [ev] (request ev).
Proof. intros h. split; [now exists [] | reflexivity]. Qed.

Lemma follows_lift_raise {A B : Type} (e : exception) (k : A -> M B)
      (s : list event) :
  follows env s (bind (lift (Raise e)) k).
Proof. intros h. split; [now exists s | discriminate]. Qed.

Lemma follows_lift_return {A B : Type} (a : A) (k : A -> M B)
      (s : list event) :
  follows env s (k a) -> follows env s (bind (lift (Return a)) k).
Proof.
  intros H h. unfold bind, lift. rewrite app_nil_r.
  specialize (H h). now destruct (k a env h).
Qed.

End Follows.

Lemma filter_prefix_length {A : Type} (f : A -> bool) (l rest : list A) :
  List.length (filter f l) <= List.length (filter f (l ++ rest)).
Proof. rewrite filter_app, length_app. lia. Qed.

(** Past its guards, [run] goes through the startup sequence. *)
Lemma run_follows_startup_sequence env token hist :
  TELEGRAM_BOT_TOKEN env = Some token ->
  is_set (TELEGRAM_BOT_TOKEN env) = true ->
  is_set (GEMINI_API_KEY env) = true ->
  model env <> None ->
  (exists rest, startup_sequence env token = fst (run env hist) ++ rest)
  /\ (snd (run env hist) = Return tt ->
      fst (run env hist) = startup_sequence env token).
Proof.
  intros Ht Hst Hsk Hm. unfold run. rewrite run_bind_ask.
  rewrite Ht in *. destruct token as [|c token]; [discriminate Hst|].
  destruct (GEMINI_API_KEY env) as [[|c' key]|]; try discriminate Hsk.
  destruct (model env) as [generate|]; [|contradiction].
  match goal with
  | |- (exists rest, _ = fst (?m env hist) ++ rest) /\ _ =>
      assert (F : follows env (startup_sequence env (String c token)) m)
  end.
  { unfold startup_sequence.
    repeat (apply (follows_bind env [_]); [apply follows_request | intros _]).
    apply follows_bind.
    - destruct (WEBHOOK_URL env) as [[|c'' url]|].
      + apply (follows_bind env [_]); [apply follows_emit | intros _].
        apply (follows_bind env [_]); [apply follows_request | intros _].
        apply follows_emit.
      + destruct (PORT env) as [port | e].
        * apply follows_lift_return.
          apply (follows_bind env [_]); [apply follows_emit | intros _].
          apply (follows_bind env [_]); [apply follows_request | intros _].
          apply follows_emit.
        * apply follows_lift_raise.
      + apply (follows_bind env [_]); [apply follows_emit | intros _].
        apply (follows_bind env [_]); [apply follows_request | intros _].
        apply follows_emit.
    - intros _. apply (follows_bind env [_] []);
        [apply follows_request | intros _; apply follows_ret]. }
  destruct (F hist) as [Hp Hr]. split; [exact Hp | apply Hr].
Qed.

(** X14: [run] does nothing out of order and never starts two transports.
    Past its guards it goes through one fixed sequence: the updater, the
    handlers of the four commands, the callback handler and the error
    handler, then the start of the one transport the environment asks for
    (the webhook when a webhook URL is set, polling otherwise), then the
    idling.  Whatever call fails, it has done an initial part of this
    sequence and nothing else; when it returns normally it has done all of
    it. *)
Theorem run_starts_one_transport :
  forall (env : environment) (hist : list event),
    List.length (filter is_start (fst (run env hist))) <= 1
    /\ forall token,
        TELEGRAM_BOT_TOKEN env = Some token ->
        is_set (TELEGRAM_BOT_TOKEN env) = true ->
        is_set (GEMINI_API_KEY env) = true ->
        model env <> None ->
        (exists rest,
            startup_sequence env token = fst (run env hist) ++ rest)
        /\ (snd (run env hist) = Return tt ->
            fst (run env hist) = startup_sequence env token).
Proof.
  intros env hist. split; [|intros token; apply run_follows_startup_sequence].
  destruct (TELEGRAM_BOT_TOKEN env) as [token|] eqn:Ht;
    [destruct (is_set (Some token)) eqn:Hst;
     [destruct (is_set (GEMINI_API_KEY env)) eqn:Hsk;
      [destruct (model env) as [generate|] eqn:Hm|]|]|].
  - assert (Hst' : is_set (TELEGRAM_BOT_TOKEN env) = true)
      by (rewrite Ht; exact Hst).
    assert (Hm' : model env <> None) by congruence.
    destruct (run_follows_startup_sequence env token hist Ht Hst' Hsk Hm')
      as [[rest Hp] _].
    etransitivity; [apply (filter_prefix_length _ _ rest)|].
    rewrite <- Hp. unfold startup_sequence.
    destruct (WEBHOOK_URL env) as [[|c url]|];
      [| destruct (PORT env) |]; cbn; lia.
  - unfold run. rewrite run_bind_ask, Ht, Hm.
    destruct token as [|c token]; [discriminate Hst|].
    destruct (GEMINI_API_KEY env) as [[|c' key]|]; cbn; lia.
  - unfold run. rewrite run_bind_ask, Ht.
    destruct token as [|c token]; [cbn; lia|].
    destruct (GEMINI_API_KEY env) as [[|c' key]|];
      try discriminate Hsk; cbn; lia.
  - unfold run. rewrite run_bind_ask, Ht.
    destruct token as [|c token]; [cbn; lia | discriminate Hst].
  - unfold run. rewrite run_bind_ask, Ht. cbn. lia.
Qed.

Lemma run_starts_one_transport_witness :
  fst (run friendly_environment [])
  = startup_sequence friendly_environment "token".
Proof.
  destruct (run_starts_one_transport friendly_environment []) as [_ H].
  destruct (H "token" eq_refl eq_refl eq_refl) as [_ Hall].
  - discriminate.
  - apply Hall. reflexivity.
Defined.

(* ================================================================== *)
(** * The rows of the categories keyboard *)
(* ================================================================== *)

Lemma range_from_unit (fuel start stop : nat) :
  stop - start <= fuel ->
  range_from fuel start stop 1 = seq start (stop - start).
Proof.
  revert start. induction fuel as [|fuel IH]; intros start H.
  - replace (stop - start) with 0 by lia. reflexivity.
  - cbn [range_from]. destruct (Nat.ltb_spec start stop) as [Hlt | Hge].
    + rewrite IH by lia.
      replace (stop - start) with (S (stop - (start + 1))) by lia.
      cbn [seq]. now replace (S start) with (start + 1) by lia.
    + now replace (stop - start) with 0 by lia.
Qed.

Lemma range_from_below (fuel start stop step i : nat) :
  In i (range_from fuel start stop step) -> start <= i < stop.
Proof.
  revert start. induction fuel as [|fuel IH]; intros start; [intros []|].
  cbn [range_from]. destruct (Nat.ltb_spec start stop) as [Hlt | Hge];
    [|intros []].
  intros [<- | H]; [lia|]. apply IH in H. lia.
Qed.

Lemma skipn_nth {A : Type} (l : list A) (i : nat) (d : A) :
  i < List.length l -> skipn i l = nth i l d :: skipn (S i) l.
Proof.
  revert i. induction l as [|x l IH]; intros i H; [cbn in H; lia|].
  destruct i as [|i]; [reflexivity|].
  cbn [skipn nth]. apply IH. cbn in H. lia.
Qed.

Lemma map_nth_seq {A B : Type} (f : A -> B) (l : list A) (d : A)
      (start k : nat) :
  start + k <= List.length l ->
  map (fun j => f (nth j l d)) (seq start k)
  = map f (firstn k (skipn start l)).
Proof.
  revert start. induction k as [|k IH]; intros start H; [reflexivity|].
  cbn [seq map]. rewrite (skipn_nth l start d) by lia.
  cbn [firstn map]. f_equal. apply IH. lia.
Qed.

(** One row: the one or two categories from position [i] on. *)
Lemma category_row (l : list (string * string)) (i : nat) :
  i < List.length l ->
  map (fun j =>
         let '(key, value) := nth j l (EmptyString, EmptyString) in
         mkButton value ("category_" ++ key))
      (range i (Nat.min (i + 2) (List.length l)) 1)
  = map category_button
        (firstn (Nat.min (i + 2) (List.length l) - i) (skipn i l)).
Proof.
  intros H. unfold range. rewrite range_from_unit by lia.
  rewrite <- (map_nth_seq category_button l (EmptyString, EmptyString))
    by lia.
  apply map_ext. intros j. unfold category_button.
  now destruct (nth j l (EmptyString, EmptyString)).
Qed.

Lemma firstn_two_skipn {A : Type} (l : list A) (i : nat) :
  i < List.length l ->
  firstn (Nat.min (i + 2) (List.length l) - i) (skipn i l)
  ++ skipn (i + 2) l
  = skipn i l.
Proof.
  intros H. replace (i + 2) with (2 + i) at 2 by lia.
  rewrite <- skipn_skipn.
  destruct (Nat.le_gt_cases (i + 2) (List.length l)) as [Hle | Hgt].
  - replace (Nat.min (i + 2) (List.length l) - i) with 2 by lia.
    apply firstn_skipn.
  - rewrite (skipn_all2 (skipn i l)) by (rewrite length_skipn; lia).
    rewrite app_nil_r. apply firstn_all2. rewrite length_skipn. lia.
Qed.

Lemma category_rows_from (l : list (string * string)) (fuel start : nat) :
  List.length l - start <= 2 * fuel ->
  concat
    (map (fun i =>
            map (fun j =>
                   let '(key, value) :=
                     nth j l (EmptyString, EmptyString) in
                   mkButton value ("category_" ++ key))
                (range i (Nat.min (i + 2) (List.length l)) 1))
         (range_from fuel start (List.length l) 2))
  = map category_button (skipn start l).
Proof.
  revert start. induction fuel as [|fuel IH]; intros start H.
  - rewrite skipn_all2 by lia. reflexivity.
  - cbn [range_from].
    destruct (Nat.ltb_spec start (List.length l)) as [Hlt | Hge].
    + cbn [map concat]. rewrite IH by lia. rewrite category_row by exact Hlt.
      rewrite <- map_app. now rewrite firstn_two_skipn.
    + rewrite skipn_all2 by lia. reflexivity.
Qed.

(** X15: the loop of [show_categories] that lays the categories out in
    rows loses nothing, whatever the list of categories: read row after
    row, the buttons are the categories in their order, each with its label
    and the identifier [category_<key>], and every row has one or two
    buttons.  The keyboard of the menu is these rows for the category
    table, followed by the row of the back button. *)
Theorem category_rows_keep_every_category :
  forall categories_list : list (string * string),
    concat (category_rows categories_list)
    = map category_button categories_list
    /\ Forall (fun row => 1 <= List.length row <= 2)
              (category_rows categories_list)
    /\ categories_keyboard
       = category_rows (dict_items BUSINESS_CATEGORIES)
         ++ [ [ mkButton "🔙 Back to Menu" "back_to_start" ] ].
Proof.
  intros l. split; [|split].
  - unfold category_rows, range. cbv zeta.
    now rewrite category_rows_from by lia.
  - unfold category_rows. cbv zeta. apply Forall_forall.
    intros row Hrow. apply in_map_iff in Hrow.
    destruct Hrow as (i & <- & Hi).
    apply range_from_below in Hi.
    rewrite length_map. unfold range.
    rewrite range_from_unit by lia. rewrite length_seq. lia.
  - reflexivity.
Qed.

(* ================================================================== *)
(** * Escaping, then letting the formatting through *)
(* ================================================================== *)

Lemma escape_except_none (s : string) :
  escape_except (fun _ => false) s = escape_markdown_v2 s.
Proof.
  rewrite escape_markdown_v2_chars. unfold escape_except.
  apply str_flat_map_ext. intros c. unfold escape_char.
  now rewrite andb_true_r.
Qed.

(** An escaped text never starts with a character that is reserved and
    not let through. *)
Lemma escape_except_head keep (s rest : string) (c : ascii) :
  escape_except keep s = String c rest ->
  is_reserved c && negb (keep c) = false.
Proof.
  destruct s as [|d s]; [discriminate|].
  unfold escape_except. cbn [str_flat_map].
  destruct (is_reserved d && negb (keep d)) eqn:Hd;
    cbn [append str1]; intros [= <- _].
  - now rewrite backslash_not_reserved.
  - exact Hd.
Qed.

(** Taking the backslash off one more reserved character [r] by
    [replace] is escaping with [r] let through as well. *)
Lemma unescape_one_more keep (r : ascii) (s : string) :
  is_reserved r = true -> keep r = false ->
  str_replace (escape_except keep s) (String backslash (str1 r)) (str1 r)
  = escape_except (fun c => keep c || Ascii.eqb c r) s.
Proof.
  intros Hr Hk. unfold str_replace, str1.
  induction s as [|c s IH]; [reflexivity|].
  unfold escape_except in *. cbn [str_flat_map].
  destruct (Ascii.eqb_spec c r) as [-> | Hcr].
  - rewrite Hr, Hk, orb_true_r. cbn [andb negb append str1].
    cbn [replace_from]. rewrite !prefix_cons, !Ascii.eqb_refl, prefix_nil.
    cbn [andb String.length Nat.sub append]. now rewrite IH.
  - rewrite orb_false_r.
    destruct (is_reserved c && negb (keep c)) eqn:Hc; cbn [append str1].
    + rewrite replace_from_head_mismatch'.
      * f_equal. rewrite replace_from_head_mismatch; [now rewrite IH|].
        apply andb_true_iff in Hc. destruct Hc as [Hc _].
        destruct (Ascii.eqb_spec c backslash) as [-> | _]; [|reflexivity].
        rewrite backslash_not_reserved in Hc. discriminate.
      * rewrite !prefix_cons, prefix_nil.
        destruct (Ascii.eqb_spec c r); [contradiction|].
        now rewrite andb_false_r.
    + rewrite replace_from_head_mismatch'; [now rewrite IH|].
      rewrite prefix_cons.
      destruct (Ascii.eqb c backslash); [|reflexivity]. cbn [andb].
      destruct (str_flat_map _ s) as [|d rest] eqn:E; [reflexivity|].
      rewrite prefix_cons, prefix_nil, andb_true_r.
      destruct (Ascii.eqb_spec d r) as [-> | _]; [|reflexivity].
      apply (escape_except_head keep s rest r) in E.
      rewrite Hr, Hk in E. discriminate.
Qed.

(** X16: what the handlers do to let their own formatting through,
    escaping a text and then replacing every escaped star by a star, is
    escaping every reserved character but the star, whatever the text:
    every star of the text ends up unescaped, and nothing else changes.
    With the escaped underscores replaced as well, stars and underscores
    are let through. *)
Theorem escape_then_replace_lets_through :
  forall text : string,
    str_replace (escape_markdown_v2 text) "\*" "*"
    = escape_except (fun c => Ascii.eqb c "*") text
    /\ str_replace (str_replace (escape_markdown_v2 text) "\*" "*") "\_" "_"
       = escape_except (fun c => Ascii.eqb c "*" || Ascii.eqb c "_") text.
Proof.
  intros text.
  assert (E : str_replace (escape_markdown_v2 text) "\*" "*"
              = escape_except (fun c => Ascii.eqb c "*") text).
  { rewrite <- escape_except_none.
    exact (unescape_one_more (fun _ => false) "*" text eq_refl eq_refl). }
  split; [exact E|]. rewrite E.
  exact (unescape_one_more (fun c => Ascii.eqb c "*") "_" text
                           eq_refl eq_refl).
Qed.

(* ================================================================== *)
(** * The loading message of the command *)
(* ================================================================== *)

Lemma run_bind_return {A B : Type} (m : M A) (k : A -> M B) env h evs a :
  m env h = (evs, Return a) ->
  bind m k env h
  = (evs ++ fst (k a env (h ++ evs)), snd (k a env (h ++ evs))).
Proof.
  intros H. unfold bind. rewrite H. now destruct (k a env (h ++ evs)).
Qed.

Lemma run_bind_raised {A B : Type} (m : M A) (k : A -> M B) env h evs e :
  m env h = (evs, Raise e) -> bind m k env h = (evs, Raise e).
Proof. intros H. unfold bind. now rewrite H. Qed.

(** X17: what the deletion of the loading message does to the rest of
    [_generate_and_send_idea], for a target that has a message.  When the
    transport rejects the deletion with a [BadRequest], the rejection is
    logged as a warning and nothing else changes: the delivery step comes
    next, with the same target, chat, idea and keyboard as after a
    deletion that succeeded.  A failure of the deletion of any other class
    ends the helper at the deletion, before the delivery step. *)
Theorem undeletable_loading_message :
  forall (uq : Update + CallbackQuery) (m : Message)
         (context : CallbackContext) (key name : string) (is_random : bool)
         (id : Z) (env : environment) (hist evs : list event)
         (idea : string),
    message_of uq = Some m ->
    id <> 0%Z ->
    generate_business_idea name env hist = (evs, Return idea) ->
    let deletion := delete_message (m_chat_id m) id in
    let run :=
      _generate_and_send_idea uq context key name is_random (Some id)
                              env hist in
    let delivery_step h :=
      send_idea_with_fallback
        uq context true (m_chat_id m) idea (idea_keyboard is_random key)
        env h in
    match transport env (hist ++ evs) deletion with
    | Return _ =>
        run = (evs ++ deletion
                   :: fst (delivery_step ((hist ++ evs) ++ [deletion])),
               snd (delivery_step ((hist ++ evs) ++ [deletion])))
    | Raise e =>
        let warning :=
          log WARNING ("Could not delete loading message: " ++ exc_str e) in
        if catches BadRequest e
        then run = (evs ++ deletion :: warning
                        :: fst (delivery_step
                                  ((hist ++ evs) ++ [deletion; warning])),
                    snd (delivery_step
                           ((hist ++ evs) ++ [deletion; warning])))
        else run = (evs ++ [deletion], Raise e)
    end.
Proof.
  intros uq m context key name is_random id env hist evs idea Hm Hid Hg.
  cbv zeta. unfold _generate_and_send_idea.
  rewrite (run_bind_return _ _ _ _ evs idea Hg).
  rewrite Hm, run_bind_ret.
  destruct (Z.eqb_spec id 0) as [-> | _]; [contradiction|].
  destruct (transport env (hist ++ evs) (delete_message (m_chat_id m) id))
    as [id' | e] eqn:Ht.
  - rewrite (run_bind_return _ _ _ _ [delete_message (m_chat_id m) id] tt).
    + reflexivity.
    + unfold try_except. now rewrite run_bind_request, Ht.
  - destruct (catches BadRequest e) eqn:Hc.
    + rewrite (run_bind_return _ _ _ _
                 [delete_message (m_chat_id m) id;
                  log WARNING ("Could not delete loading message: "
                               ++ exc_str e)] tt).
      * reflexivity.
      * unfold try_except. now rewrite run_bind_request, Ht, Hc.
    + rewrite (run_bind_raised _ _ _ _ [delete_message (m_chat_id m) id] e);
        [reflexivity|].
      unfold try_except. now rewrite run_bind_request, Ht, Hc.
Qed.

Lemma undeletable_loading_message_witness :
  _generate_and_send_idea (inl (command (mkMessage 10 20))) (mkContext None)
                          "tech" "🚀 Technology & Software" true
                          (Some 5%Z) undeletable_environment []
  = ([ generate_content (prompt "🚀 Technology & Software");
       delete_message 10 5;
       log WARNING
           "Could not delete loading message: Message to delete not found" ],
     Raise (mkException AttributeError
                        "object has no attribute 'edit_message_text'")).
Proof.
  assert (H5 : 5%Z <> 0%Z) by discriminate.
  exact (undeletable_loading_message
           (inl (command (mkMessage 10 20))) (mkMessage 10 20)
           (mkContext None) "tech" "🚀 Technology & Software" true 5%Z
           undeletable_environment []
           [generate_content (prompt "🚀 Technology & Software")]
           "*A bold idea*" eq_refl H5 eq_refl).
Defined.
